(** * Interception keyboard typer: the scan-code encoder and the emission loop

    A shallow embedding of [resources/interception/interception-type.cpp]:
    [char_to_scancode], [send_key], [type_text] and [main], with the calls
    into the Interception driver, [Sleep] and [printf] recorded as a trace
    of effects.

    Conventions.
    - A C string is the [string] of its characters before the terminating
      NUL; [text[i]] at the terminator reads ["000"].
    - [char] is the signed 8-bit type of the MSVC compiler the file is built
      with ([cl interception-type.cpp]); [schar] gives its [int] value.
    - [unsigned short] results are reduced modulo 2^16, and a [size_t]
      stored in or printed as an [int] is reduced to 32 bits, signed.
    - A call may never return: [Sleep] of [INFINITE] suspends the thread
      for ever.  A computation then has no result, and the trace holds what
      happened up to that call. *)

From Stdlib Require Import ZArith List String Ascii Bool Lia.
From Stdlib Require Import DecimalString DecimalPos.
Import ListNotations.
Local Open Scope Z_scope.

(** ** Characters *)

Module CChar.

(** The [unsigned char] value of a byte. *)
Definition uchar (c : ascii) : Z := Z.of_N (N_of_ascii c).

(** The value of a [char] after integer promotion (signed). *)
Definition schar (c : ascii) : Z :=
  let u := uchar c in if u <? 128 then u else u - 256.

Definition to_ushort (x : Z) : Z := x mod 65536.

(** Every byte is one of the 256 values: a property checked on all of them
    holds of each. *)
Definition all_chars : list ascii :=
  map (fun n => ascii_of_nat n) (seq 0 256).

End CChar.
Import CChar.

(** ** The encoder *)

(** [unsigned short char_to_scancode(char c, bool &need_shift)].  The
    reference parameter is an in/out argument: the function receives the
    caller's value and returns the final one next to the scan code. *)
Definition char_to_scancode (c : ascii) (need_shift : bool) : Z * bool :=
  let need_shift := false in
  (* Lowercase letters (a-z) *)
  if (schar "a" <=? schar c) && (schar c <=? schar "z") then
    (to_ushort (0x1E + (schar c - schar "a")), need_shift)
  (* Uppercase letters (A-Z) *)
  else if (schar "A" <=? schar c) && (schar c <=? schar "Z") then
    let need_shift := true in
    (to_ushort (0x1E + (schar c - schar "A")), need_shift)
  (* Numbers (0-9) *)
  else if (schar "0" <=? schar c) && (schar c <=? schar "9") then
    if schar c =? schar "0" then (0x0B, need_shift)
    else (to_ushort (0x02 + (schar c - schar "1")), need_shift)
  else
    (* Special characters *)
    match c with
    | " "%char => (0x39, need_shift)    (* Space *)
    | "010"%char => (0x1C, need_shift)  (* Enter *)
    | "009"%char => (0x0F, need_shift)  (* Tab *)
    | "-"%char => (0x0C, need_shift)
    | "="%char => (0x0D, need_shift)
    | "["%char => (0x1A, need_shift)
    | "]"%char => (0x1B, need_shift)
    | "\"%char => (0x2B, need_shift)
    | ";"%char => (0x27, need_shift)
    | "'"%char => (0x28, need_shift)
    | "`"%char => (0x29, need_shift)
    | ","%char => (0x33, need_shift)
    | "."%char => (0x34, need_shift)
    | "/"%char => (0x35, need_shift)
    (* Shifted characters *)
    | "!"%char => (0x02, true)
    | "@"%char => (0x03, true)
    | "#"%char => (0x04, true)
    | "$"%char => (0x05, true)
    | "%"%char => (0x06, true)
    | "^"%char => (0x07, true)
    | "&"%char => (0x08, true)
    | "*"%char => (0x09, true)
    | "("%char => (0x0A, true)
    | ")"%char => (0x0B, true)
    | "_"%char => (0x0C, true)
    | "+"%char => (0x0D, true)
    | "{"%char => (0x1A, true)
    | "}"%char => (0x1B, true)
    | "|"%char => (0x2B, true)
    | ":"%char => (0x27, true)
    | "034"%char => (0x28, true)        (* double quote *)
    | "~"%char => (0x29, true)
    | "<"%char => (0x33, true)
    | ">"%char => (0x34, true)
    | "?"%char => (0x35, true)
    | _ => (0x00, need_shift)           (* Unknown *)
    end.

(** ** The C runtime: [strlen], [atoi] and [printf] *)

Module CRuntime.

Definition strlen (s : string) : nat := String.length s.

(** [text[i]]; the byte at index [strlen text] is the terminator. *)
Definition char_at (text : string) (i : nat) : ascii :=
  match String.get i text with
  | Some c => c
  | None => "000"%char
  end.

Definition INT_MAX : Z := 2147483647.
Definition INT_MIN : Z := -2147483648.

Definition isspace (c : ascii) : bool :=
  (uchar c =? 32) || ((9 <=? uchar c) && (uchar c <=? 13)).

Definition isdigit (c : ascii) : bool :=
  (uchar "0" <=? uchar c) && (uchar c <=? uchar "9").

Fixpoint skip_spaces (s : string) : string :=
  match s with
  | String c r => if isspace c then skip_spaces r else s
  | EmptyString => s
  end.

(** The value of the longest prefix of decimal digits, after [acc]. *)
Fixpoint digits_value (s : string) (acc : Z) : Z :=
  match s with
  | String c r =>
      if isdigit c then digits_value r (acc * 10 + (uchar c - uchar "0"))
      else acc
  | EmptyString => acc
  end.

Definition saturate (x : Z) : Z :=
  if x <? INT_MIN then INT_MIN else if INT_MAX <? x then INT_MAX else x.

(** [atoi] of the Microsoft C runtime the program links
    against: leading white space is skipped, one optional sign is read, then
    decimal digits up to the first other character; no digits give 0 and an
    out-of-range value gives [INT_MAX] or [INT_MIN]. *)
Definition atoi (s : string) : Z :=
  match skip_spaces s with
  | String "-" r => saturate (- digits_value r 0)
  | String "+" r => saturate (digits_value r 0)
  | t => saturate (digits_value t 0)
  end.

(** Arguments of a [printf] call, by the conversion that consumes them. *)
Inductive Arg :=
| ArgChar (c : ascii)      (* %c *)
| ArgInt (n : Z)           (* %d *)
| ArgHex (n : Z)           (* %02X *)
| ArgStr (s : string).     (* %s *)

Definition hex_digit (d : Z) : ascii :=
  if d <? 10 then ascii_of_N (Z.to_N (uchar "0" + d))
  else ascii_of_N (Z.to_N (uchar "A" + (d - 10))).

(** Upper-case hexadecimal digits of [n], most significant first; [fuel]
    bounds the number of digits. *)
Fixpoint hex_digits (fuel : nat) (n : Z) (acc : string) : string :=
  match fuel with
  | O => acc
  | S fuel' =>
      let acc' := String (hex_digit (n mod 16)) acc in
      if n / 16 =? 0 then acc' else hex_digits fuel' (n / 16) acc'
  end.

(** [%02X]: at least two digits, padded with a zero. *)
Definition fmt_02X (n : Z) : string :=
  let ds := hex_digits 8 n EmptyString in
  if (String.length ds <? 2)%nat then String "0" ds else ds.

Definition fmt_d (n : Z) : string := NilZero.string_of_int (Z.to_int n).

(** The text a [printf] call writes. *)
Fixpoint render (fmt : string) (args : list Arg) : string :=
  match fmt with
  | EmptyString => EmptyString
  | String "%" (String "c" r) =>
      match args with
      | ArgChar c :: args' => String c (render r args')
      | _ => render r (tl args)
      end
  | String "%" (String "d" r) =>
      match args with
      | ArgInt n :: args' => append (fmt_d n) (render r args')
      | _ => render r (tl args)
      end
  | String "%" (String "s" r) =>
      match args with
      | ArgStr s :: args' => append s (render r args')
      | _ => render r (tl args)
      end
  | String "%" (String "0" (String "2" (String "X" r))) =>
      match args with
      | ArgHex n :: args' => append (fmt_02X n) (render r args')
      | _ => render r (tl args)
      end
  | String c r => String c (render r args)
  end.

Definition nl : string := String "010" EmptyString.
Definition dquote : string := String "034" EmptyString.

End CRuntime.
Import CRuntime.

(** ** The Interception driver, as the program sees it *)

Module Interception.

Inductive InterceptionKeyState := INTERCEPTION_KEY_DOWN | INTERCEPTION_KEY_UP.

Inductive InterceptionFilterKeyState :=
| INTERCEPTION_FILTER_KEY_NONE
| INTERCEPTION_FILTER_KEY_DOWN.

Record InterceptionKeyStroke := {
  code : Z;                       (* unsigned short *)
  state : InterceptionKeyState;
  information : Z                 (* unsigned int *)
}.

(** [InterceptionContext] is a pointer, 0 being NULL; [InterceptionDevice]
    is an [int]. *)
Definition InterceptionContext := Z.
Definition InterceptionDevice := Z.

(** What the driver answers.  [drv_send] is the result of
    [interception_send] (the number of strokes written, 0 when the send
    fails), given the strokes the driver was handed before. *)
Record Driver := {
  drv_create_context : InterceptionContext;
  drv_wait : InterceptionDevice;
  drv_is_invalid : InterceptionDevice -> bool;
  drv_send : list (InterceptionDevice * InterceptionKeyStroke) ->
             InterceptionDevice -> InterceptionKeyStroke -> Z
}.

End Interception.
Import Interception.

(** ** Effects *)

Inductive Effect :=
| EPrintf (fmt : string) (args : list Arg)
| EFprintfStderr (fmt : string) (args : list Arg)
| ESleep (dwMilliseconds : Z)
| ECreateContext (result : InterceptionContext)
| ESetFilter (context : InterceptionContext) (filter : InterceptionFilterKeyState)
| EWait (context : InterceptionContext) (result : InterceptionDevice)
| ESend (context : InterceptionContext) (device : InterceptionDevice)
        (stroke : InterceptionKeyStroke) (nstroke : Z) (result : Z)
| EDestroyContext (context : InterceptionContext).

Definition Trace := list Effect.

(** The strokes handed to the driver so far, in order. *)
Fixpoint strokes (tr : Trace) : list (InterceptionDevice * InterceptionKeyStroke) :=
  match tr with
  | [] => []
  | ESend _ device stroke _ _ :: tr' => (device, stroke) :: strokes tr'
  | _ :: tr' => strokes tr'
  end.


(** A computation reads the driver and extends the trace.  Its result is
    [None] when a call inside it never returns. *)
Definition M (A : Type) : Type := Driver -> Trace -> option A * Trace.

Definition ret {A} (a : A) : M A := fun _ tr => (Some a, tr).

Definition bind {A B} (m : M A) (k : A -> M B) : M B :=
  fun drv tr =>
    match m drv tr with
    | (Some a, tr') => k a drv tr'
    | (None, tr') => (None, tr')
    end.

Declare Scope m_scope.
Delimit Scope m_scope with M.
Notation "x <- m ;; k" := (bind m (fun x => k))
  (at level 61, m at next level, right associativity) : m_scope.
Notation "m ;; k" := (bind m (fun _ => k))
  (at level 61, right associativity) : m_scope.
Local Open Scope m_scope.

Definition emit (e : Effect) : M unit :=
  fun _ tr => (Some tt, (tr ++ [e])%list).

Definition printf (fmt : string) (args : list Arg) : M unit :=
  emit (EPrintf fmt args).

Definition fprintf_stderr (fmt : string) (args : list Arg) : M unit :=
  emit (EFprintfStderr fmt args).

(** The [DWORD] value [INFINITE] of the Windows headers. *)
Definition INFINITE : Z := 0xFFFFFFFF.

(** [Sleep] takes a [DWORD]: an [int] argument is converted modulo 2^32.
    The call is recorded, and it returns unless the duration is
    [INFINITE]. *)
Definition Sleep (ms : Z) : M unit :=
  fun _ tr =>
    let dwMilliseconds := ms mod 2 ^ 32 in
    (if dwMilliseconds =? INFINITE then None else Some tt,
     (tr ++ [ESleep dwMilliseconds])%list).

Definition interception_create_context : M InterceptionContext :=
  fun drv tr =>
    let c := drv_create_context drv in
    (Some c, (tr ++ [ECreateContext c])%list).

Definition interception_set_filter (context : InterceptionContext)
    (filter : InterceptionFilterKeyState) : M unit :=
  emit (ESetFilter context filter).

Definition interception_wait (context : InterceptionContext) : M InterceptionDevice :=
  fun drv tr =>
    let d := drv_wait drv in (Some d, (tr ++ [EWait context d])%list).

Definition interception_is_invalid (device : InterceptionDevice) : M bool :=
  fun drv tr => (Some (drv_is_invalid drv device), tr).

Definition interception_send (context : InterceptionContext)
    (device : InterceptionDevice) (stroke : InterceptionKeyStroke) (nstroke : Z) : M Z :=
  fun drv tr =>
    let r := drv_send drv (strokes tr) device stroke in
    (Some r, (tr ++ [ESend context device stroke nstroke r])%list).

Definition interception_destroy_context (context : InterceptionContext) : M unit :=
  emit (EDestroyContext context).

(** ** The program *)

(** [send_key]: the result of [interception_send] is dropped. *)
Definition send_key (context : InterceptionContext) (keyboard : InterceptionDevice)
    (scancode : Z) (down : bool) : M unit :=
  let stroke := {| code := scancode;
                   state := if down then INTERCEPTION_KEY_DOWN else INTERCEPTION_KEY_UP;
                   information := 0 |} in
  _ <- interception_send context keyboard stroke 1 ;;
  ret tt.

Definition fmt_warning : string :=
  append "Warning: Unknown character '%c' (0x%02X)" nl.
Definition fmt_typed : string := append "Typed: %c" nl.

(** The body of the loop of [type_text], for the character [c = text[i]]. *)
Definition type_text_body (context : InterceptionContext)
    (keyboard : InterceptionDevice) (c : ascii) (delay_ms : Z) : M unit :=
  let need_shift := false in
  let '(scancode, need_shift) := char_to_scancode c need_shift in
  if scancode =? 0x00 then
    printf fmt_warning [ArgChar c; ArgHex (uchar c)]
    (* continue *)
  else
    (* Press shift if needed *)
    (if need_shift then
       send_key context keyboard 0x2A true ;; Sleep 10
     else ret tt) ;;
    (* Press key *)
    send_key context keyboard scancode true ;;
    Sleep 10 ;;
    (* Release key *)
    send_key context keyboard scancode false ;;
    (* Release shift if needed *)
    (if need_shift then
       Sleep 10 ;; send_key context keyboard 0x2A false
     else ret tt) ;;
    (* Delay between characters *)
    Sleep delay_ms ;;
    printf fmt_typed [ArgChar c].


(** [for (int i = i0; i < i0 + n; i++) body(i)]: [n] iterations, unless one
    of them never returns. *)
Fixpoint for_loop (n : nat) (i : nat) (body : nat -> M unit) : M unit :=
  match n with
  | O => ret tt
  | S n' => body i ;; for_loop n' (S i) body
  end.

(** The conversion of an integer to [int]: its low 32 bits, signed. *)
Definition to_int (x : Z) : Z := (x + 2 ^ 31) mod 2 ^ 32 - 2 ^ 31.

(** [int len = strlen(text)], then the loop from 0 while [i < len]: no
    iteration when [len] is not positive. *)
Definition type_text (context : InterceptionContext) (keyboard : InterceptionDevice)
    (text : string) (delay_ms : Z) : M unit :=
  let len := to_int (Z.of_nat (strlen text)) in
  for_loop (Z.to_nat len) 0
    (fun i => type_text_body context keyboard (char_at text i) delay_ms).

Definition fmt_done : string :=
  append nl (append "Done! Typed %d characters" nl).

Definition main (argv : list string) : M Z :=
  let argc := Z.of_nat (List.length argv) in
  if argc <? 2 then
    printf (append "Usage: interception-type.exe "
              (append dquote (append "text to type" (append dquote
                 (append " [delay_ms]" nl))))) [] ;;
    printf (append "Example: interception-type.exe "
              (append dquote (append "password123" (append dquote
                 (append " 100" nl))))) [] ;;
    ret 1
  else
    let text := nth 1 argv EmptyString in
    let delay_ms := if 3 <=? argc then atoi (nth 2 argv EmptyString) else 100 in
    printf (append "Interception Keyboard Typer" nl) [] ;;
    printf (append "============================" nl) [] ;;
    printf (append "Text: %s" nl) [ArgStr text] ;;
    printf (append "Delay: %dms per character" (append nl nl)) [ArgInt delay_ms] ;;
    (* Create Interception context *)
    context <- interception_create_context ;;
    if context =? 0 then
      fprintf_stderr (append "ERROR: Failed to create Interception context." nl) [] ;;
      fprintf_stderr (append "Is the Interception driver installed?" nl) [] ;;
      fprintf_stderr (append "Run: install-interception.exe /install" nl) [] ;;
      ret 1
    else
      printf (append "Interception context created successfully" nl) [] ;;
      (* Wait for any keyboard device *)
      printf (append "Press any key on your keyboard..." nl) [] ;;
      interception_set_filter context INTERCEPTION_FILTER_KEY_DOWN ;;
      keyboard <- interception_wait context ;;
      invalid <- interception_is_invalid keyboard ;;
      if invalid then
        fprintf_stderr (append "ERROR: No keyboard device detected" nl) [] ;;
        interception_destroy_context context ;;
        ret 1
      else
        printf (append "Keyboard device detected: %d" nl) [ArgInt keyboard] ;;
        (* Clear the filter so we can send freely *)
        interception_set_filter context INTERCEPTION_FILTER_KEY_NONE ;;
        (* Wait a moment before typing *)
        Sleep 500 ;;
        printf (append nl (append "Starting to type in 2 seconds..." nl)) [] ;;
        Sleep 2000 ;;
        (* Type the text *)
        type_text context keyboard text delay_ms ;;
        (* %d reads the size_t of strlen as an int *)
        printf fmt_done [ArgInt (to_int (Z.of_nat (strlen text)))] ;;
        (* Cleanup *)
        interception_destroy_context context ;;
        ret 0.

(** ** Observations on a run *)

Definition run {A} (m : M A) (drv : Driver) : option A * Trace := m drv [].

(** A driver that accepts everything: context 1, keyboard device 1. *)
Definition good_driver : Driver :=
  {| drv_create_context := 1;
     drv_wait := 1;
     drv_is_invalid := fun d => negb ((1 <=? d) && (d <=? 20));
     drv_send := fun _ _ _ => 1 |}.

(** A driver on which every send fails. *)
Definition deaf_driver : Driver :=
  {| drv_create_context := 1;
     drv_wait := 1;
     drv_is_invalid := fun d => negb ((1 <=? d) && (d <=? 20));
     drv_send := fun _ _ _ => 0 |}.

(** The per-character progress lines of a run: [Typed c] for
    ["Typed: %c"], [Skipped c] for the unknown-character warning. *)
Inductive Progress := Typed (c : ascii) | Skipped (c : ascii).


Definition progress_of (e : Effect) : list Progress :=
  match e with
  | EPrintf fmt (ArgChar c :: _) =>
      if String.eqb fmt fmt_typed then [Typed c]
      else if String.eqb fmt fmt_warning then [Skipped c]
      else []
  | _ => []
  end.

Definition progress (tr : Trace) : list Progress := flat_map progress_of tr.

Definition is_typed (p : Progress) : bool :=
  match p with Typed _ => true | Skipped _ => false end.

(** The number of characters emitted, and of warnings, in a run. *)
Definition typed_count (tr : Trace) : nat :=
  List.length (filter is_typed (progress tr)).
Definition warning_count (tr : Trace) : nat :=
  List.length (filter (fun p => negb (is_typed p)) (progress tr)).

Definition is_sleep (e : Effect) : bool :=
  match e with ESleep _ => true | _ => false end.

(** A run without its pauses. *)
Definition without_sleeps (tr : Trace) : Trace :=
  filter (fun e => negb (is_sleep e)) tr.

(** The time spent in [Sleep], in milliseconds. *)
Fixpoint elapsed (tr : Trace) : Z :=
  match tr with
  | [] => 0
  | ESleep ms :: tr' => ms + elapsed tr'
  | _ :: tr' => elapsed tr'
  end.

(** A run without what the driver answered to each send. *)
Definition forget_result (e : Effect) : Effect :=
  match e with
  | ESend context device stroke nstroke _ => ESend context device stroke nstroke 0
  | _ => e
  end.

Definition with_send (drv : Driver)
    (f : list (InterceptionDevice * InterceptionKeyStroke) ->
         InterceptionDevice -> InterceptionKeyStroke -> Z) : Driver :=
  {| drv_create_context := drv_create_context drv;
     drv_wait := drv_wait drv;
     drv_is_invalid := drv_is_invalid drv;
     drv_send := f |}.

(** The key events. *)
Definition keyDown (scancode : Z) : InterceptionKeyStroke :=
  {| code := scancode; state := INTERCEPTION_KEY_DOWN; information := 0 |}.
Definition keyUp (scancode : Z) : InterceptionKeyStroke :=
  {| code := scancode; state := INTERCEPTION_KEY_UP; information := 0 |}.
Definition shiftDown : InterceptionKeyStroke := keyDown 0x2A.
Definition shiftUp : InterceptionKeyStroke := keyUp 0x2A.

Definition scancode_of (c : ascii) : Z := fst (char_to_scancode c false).
Definition shift_of (c : ascii) : bool := snd (char_to_scancode c false).

(** The character classes of the encoder. *)
Definition is_lower (c : ascii) : bool :=
  (schar "a" <=? schar c) && (schar c <=? schar "z").
Definition is_upper (c : ascii) : bool :=
  (schar "A" <=? schar c) && (schar c <=? schar "Z").
Definition is_digit (c : ascii) : bool :=
  (schar "0" <=? schar c) && (schar c <=? schar "9").

Definition toUpper (c : ascii) : ascii :=
  if is_lower c then ascii_of_N (Z.to_N (uchar c - 32)) else c.

Definition fixed_punctuation : list ascii :=
  [" "; "010"; "009"; "-"; "="; "["; "]"; "\"; ";"; "'"; "`"; ","; "."; "/"]%char.

(** Each shifted symbol with the key it sits on (US layout). *)
Definition shifted_base : list (ascii * ascii) :=
  [("!", "1"); ("@", "2"); ("#", "3"); ("$", "4"); ("%", "5"); ("^", "6");
   ("&", "7"); ("*", "8"); ("(", "9"); (")", "0"); ("_", "-"); ("+", "=");
   ("{", "["); ("}", "]"); ("|", "\"); (":", ";"); ("034", "'"); ("~", "`");
   ("<", ","); (">", "."); ("?", "/")]%char.

Definition shifted_punctuation : list ascii := map fst shifted_base.

Definition declared (c : ascii) : bool :=
  is_lower c || is_upper c || is_digit c
  || existsb (Ascii.eqb c) fixed_punctuation
  || existsb (Ascii.eqb c) shifted_punctuation.

(** The digit character of value [i]. *)
Definition digit (i : Z) : ascii := ascii_of_N (Z.to_N (uchar "0" + i)).

(** The loop of [type_text] by recursion on the text. *)
Fixpoint type_string (context : InterceptionContext) (keyboard : InterceptionDevice)
    (s : string) (delay_ms : Z) : M unit :=
  match s with
  | EmptyString => ret tt
  | String c r =>
      type_text_body context keyboard c delay_ms ;;
      type_string context keyboard r delay_ms
  end.

(** ** The trace of a run, in closed form *)

Definition History := list (InterceptionDevice * InterceptionKeyStroke).

(** The characters the encoder knows. *)
Definition known (c : ascii) : bool := negb (scancode_of c =? 0).

(** Whether [Sleep(delay_ms)] never returns, and that it does. *)
Definition blocks (delay_ms : Z) : bool := delay_ms mod 2 ^ 32 =? INFINITE.
Definition sleep_returns (delay_ms : Z) : Prop := delay_ms mod 2 ^ 32 <> INFINITE.

(** The part of the text the loop ranges over: all of it when its length
    fits an [int]. *)
Definition loop_text (text : string) : string :=
  substring 0 (Z.to_nat (to_int (Z.of_nat (strlen text)))) text.

(** The effect of one [send_key] when the driver has seen [h]. *)
Definition sent (drv : Driver) (context : InterceptionContext)
    (keyboard : InterceptionDevice) (h : History) (stroke : InterceptionKeyStroke) : Effect :=
  ESend context keyboard stroke 1 (drv_send drv h keyboard stroke).

(** The strokes of one character. *)
Definition key_events (c : ascii) : list InterceptionKeyStroke :=
  if scancode_of c =? 0 then []
  else if shift_of c then
    [shiftDown; keyDown (scancode_of c); keyUp (scancode_of c); shiftUp]
  else [keyDown (scancode_of c); keyUp (scancode_of c)].

(** What one iteration of the loop appends to the trace.  For a known
    character the last pause is [Sleep(delay_ms)]; the progress line
    follows when that pause returns. *)
Definition body_effects (drv : Driver) (context : InterceptionContext)
    (keyboard : InterceptionDevice) (c : ascii) (delay_ms : Z) (h : History) : Trace :=
  let sc := scancode_of c in
  let k := keyboard in
  let last := if blocks delay_ms then [] else [EPrintf fmt_typed [ArgChar c]] in
  if sc =? 0 then [EPrintf fmt_warning [ArgChar c; ArgHex (uchar c)]]
  else if shift_of c then
    [sent drv context k h shiftDown;
     ESleep 10;
     sent drv context k (h ++ [(k, shiftDown)]) (keyDown sc);
     ESleep 10;
     sent drv context k (h ++ [(k, shiftDown); (k, keyDown sc)]) (keyUp sc);
     ESleep 10;
     sent drv context k (h ++ [(k, shiftDown); (k, keyDown sc); (k, keyUp sc)]) shiftUp;
     ESleep (delay_ms mod 2 ^ 32)] ++ last
  else
    [sent drv context k h (keyDown sc);
     ESleep 10;
     sent drv context k (h ++ [(k, keyDown sc)]) (keyUp sc);
     ESleep (delay_ms mod 2 ^ 32)] ++ last.

(** Whether the iteration for [c] never returns. *)
Definition body_blocks (c : ascii) (delay_ms : Z) : bool :=
  known c && blocks delay_ms.

Fixpoint text_effects (drv : Driver) (context : InterceptionContext)
    (keyboard : InterceptionDevice) (s : string) (delay_ms : Z) (h : History) : Trace :=
  match s with
  | EmptyString => []
  | String c r =>
      body_effects drv context keyboard c delay_ms h
      ++ (if body_blocks c delay_ms then []
          else text_effects drv context keyboard r delay_ms
                 (h ++ map (pair keyboard) (key_events c)))
  end.

Fixpoint text_blocks (s : string) (delay_ms : Z) : bool :=
  match s with
  | EmptyString => false
  | String c r => body_blocks c delay_ms || text_blocks r delay_ms
  end.

(** The characters whose iteration is entered. *)
Fixpoint reached (delay_ms : Z) (cs : list ascii) : list ascii :=
  match cs with
  | [] => []
  | c :: r => c :: (if body_blocks c delay_ms then [] else reached delay_ms r)
  end.

(** ** The trace of a whole text *)

Definition progress_entry (c : ascii) : Progress :=
  if scancode_of c =? 0 then Skipped c else Typed c.

(** The time a character takes: the settle pauses and the pacing delay. *)
Definition char_time (delay_ms : Z) (c : ascii) : Z :=
  if scancode_of c =? 0 then 0
  else if shift_of c then 30 + delay_ms mod 2 ^ 32
  else 10 + delay_ms mod 2 ^ 32.

(** ** The program as a whole *)

(** The delay [main] passes on: [argv[2]] through [atoi], or 100. *)
Definition delay_arg (argv : list string) : Z :=
  if 3 <=? Z.of_nat (List.length argv) then atoi (nth 2 argv EmptyString) else 100.

Definition fmt_delay : string := append "Delay: %dms per character" (append nl nl).

(** What [main] has done when it calls [type_text]. *)
Definition main_prelude (text : string) (delay_ms : Z)
    (context : InterceptionContext) (keyboard : InterceptionDevice) : Trace :=
  [EPrintf (append "Interception Keyboard Typer" nl) [];
   EPrintf (append "============================" nl) [];
   EPrintf (append "Text: %s" nl) [ArgStr text];
   EPrintf fmt_delay [ArgInt delay_ms];
   ECreateContext context;
   EPrintf (append "Interception context created successfully" nl) [];
   EPrintf (append "Press any key on your keyboard..." nl) [];
   ESetFilter context INTERCEPTION_FILTER_KEY_DOWN;
   EWait context keyboard;
   EPrintf (append "Keyboard device detected: %d" nl) [ArgInt keyboard];
   ESetFilter context INTERCEPTION_FILTER_KEY_NONE;
   ESleep 500;
   EPrintf (append nl (append "Starting to type in 2 seconds..." nl)) [];
   ESleep 2000].

Definition main_fails (argv : list string) (drv : Driver) : Prop :=
  (List.length argv < 2)%nat
  \/ drv_create_context drv = 0
  \/ drv_is_invalid drv (drv_wait drv) = true.

Definition stderr_lines (tr : Trace) : list string :=
  flat_map (fun e => match e with
                     | EFprintfStderr fmt args => [render fmt args]
                     | _ => []
                     end) tr.

(** ** Further observations *)

(** How many characters of a text are typed, and how many of them with
    shift. *)
Definition known_count (text : string) : Z :=
  Z.of_nat (List.length (filter known (list_ascii_of_string text))).
Definition shifted_count (text : string) : Z :=
  Z.of_nat (List.length (filter shift_of (list_ascii_of_string text))).

(** The pairs of distinct characters the encoder cannot tell apart: a
    letter and the punctuation key whose scan code the letter formula
    reaches. *)
Definition colliding : list (ascii * ascii) :=
  [("j", ";"); ("k", "'"); ("l", "`"); ("n", "\"); ("v", ","); ("w", ".");
   ("x", "/"); ("J", ":"); ("K", "034"); ("L", "~"); ("N", "|"); ("V", "<");
   ("W", ">"); ("X", "?")]%char.

(** Same scan code and same shift flag. *)
Definition same_code (c d : ascii) : bool :=
  (scancode_of c =? scancode_of d) && Bool.eqb (shift_of c) (shift_of d).

Definition in_pairs (c d : ascii) (l : list (ascii * ascii)) : bool :=
  existsb (fun p => Ascii.eqb (fst p) c && Ascii.eqb (snd p) d) l.

(** The keys held down after the strokes [ks], starting from [stack]: a
    key-down pushes its scan code, a key-up must release the key pressed
    last.  [None] when a key-up finds another key, or none, on top. *)
Fixpoint held (ks : list InterceptionKeyStroke) (stack : list Z) : option (list Z) :=
  match ks with
  | [] => Some stack
  | k :: ks' =>
      match state k with
      | INTERCEPTION_KEY_DOWN => held ks' (code k :: stack)
      | INTERCEPTION_KEY_UP =>
          match stack with
          | top :: rest => if top =? code k then held ks' rest else None
          | [] => None
          end
      end
  end.

(** What an effect of the typing loop may be: console output, a pause, or
    the send of one well-formed stroke to the given device. *)
Definition loop_effect (context : InterceptionContext)
    (keyboard : InterceptionDevice) (e : Effect) : Prop :=
  match e with
  | EPrintf _ _ => True
  | ESleep ms => 0 <= ms < 2 ^ 32
  | ESend c d stroke nstroke _ =>
      c = context /\ d = keyboard /\ nstroke = 1
      /\ information stroke = 0 /\ 0x02 <= code stroke <= 0x39
  | _ => False
  end.



(** The encoder does not tell the two characters apart. *)
Definition same_encoding (c d : ascii) : Prop :=
  char_to_scancode c false = char_to_scancode d false.


(** * Properties *)

(** ** Characters, and the runtime on examples *)

Lemma all_chars_complete c : In c all_chars.
Proof.
  unfold all_chars. apply in_map_iff. exists (nat_of_ascii c). split.
  - apply ascii_nat_embedding.
  - apply in_seq. pose proof (nat_ascii_bounded c). lia.
Qed.

Lemma forall_chars (P : ascii -> bool) :
  forallb P all_chars = true -> forall c, P c = true.
Proof.
  intros H c. rewrite forallb_forall in H. apply H, all_chars_complete.
Qed.

Example enc_a : char_to_scancode "a" true = (0x1E, false).
Proof. reflexivity. Qed.
Example enc_Z : char_to_scancode "Z" false = (0x37, true).
Proof. reflexivity. Qed.
Example enc_0 : char_to_scancode "0" false = (0x0B, false).
Proof. reflexivity. Qed.
Example enc_9 : char_to_scancode "9" false = (0x0A, false).
Proof. reflexivity. Qed.
Example enc_dq : char_to_scancode "034" false = (0x28, true).
Proof. reflexivity. Qed.
Example enc_cr : char_to_scancode "013" true = (0, false).
Proof. reflexivity. Qed.

Example atoi_100 : atoi "100" = 100.
Proof. reflexivity. Qed.
Example atoi_neg : atoi "-5" = -5.
Proof. reflexivity. Qed.
Example atoi_junk : atoi "abc" = 0.
Proof. reflexivity. Qed.
Example atoi_lead : atoi "  +42ms" = 42.
Proof. reflexivity. Qed.
Example atoi_big : atoi "99999999999" = INT_MAX.
Proof. reflexivity. Qed.
Example fmt_02X_cr : fmt_02X 13 = "0D"%string.
Proof. reflexivity. Qed.
Example fmt_02X_ff : fmt_02X 255 = "FF"%string.
Proof. reflexivity. Qed.
Example render_warning :
  render (append "Warning: Unknown character '%c' (0x%02X)" nl)
         [ArgChar "013"; ArgHex 13]
  = append (append "Warning: Unknown character '" (String "013" "' (0x0D)")) nl.
Proof. reflexivity. Qed.

(** ** Lemmas on the observations *)

Lemma strokes_app tr1 tr2 : strokes (tr1 ++ tr2) = strokes tr1 ++ strokes tr2.
Proof.
  induction tr1 as [|e tr1 IH]; simpl; [reflexivity|].
  destruct e; simpl; rewrite ?IH; reflexivity.
Qed.

Lemma progress_app tr1 tr2 : progress (tr1 ++ tr2) = progress tr1 ++ progress tr2.
Proof. unfold progress. apply flat_map_app. Qed.

Lemma without_sleeps_app tr1 tr2 :
  without_sleeps (tr1 ++ tr2) = without_sleeps tr1 ++ without_sleeps tr2.
Proof. unfold without_sleeps. apply filter_app. Qed.

Lemma elapsed_app tr1 tr2 : elapsed (tr1 ++ tr2) = elapsed tr1 + elapsed tr2.
Proof.
  induction tr1 as [|e tr1 IH]; simpl; [reflexivity|].
  destruct e; simpl; rewrite ?IH; lia.
Qed.

Lemma strokes_without_sleeps tr : strokes (without_sleeps tr) = strokes tr.
Proof.
  induction tr as [|e tr IH]; simpl; [reflexivity|].
  destruct e; simpl; rewrite ?IH; reflexivity.
Qed.

Lemma strokes_forget_result tr : strokes (map forget_result tr) = strokes tr.
Proof.
  induction tr as [|e tr IH]; simpl; [reflexivity|].
  destruct e; simpl; rewrite ?IH; reflexivity.
Qed.

Lemma progress_without_sleeps tr : progress (without_sleeps tr) = progress tr.
Proof.
  induction tr as [|e tr IH]; simpl; [reflexivity|].
  destruct e; simpl; rewrite ?IH; reflexivity.
Qed.

Lemma scancode_shift c b :
  char_to_scancode c b = (scancode_of c, shift_of c).
Proof.
  unfold scancode_of, shift_of.
  change (char_to_scancode c b) with (char_to_scancode c false).
  destruct (char_to_scancode c false); reflexivity.
Qed.


(** ** Facts on the encoder, checked on all 256 characters *)

Lemma declared_iff_known c : declared c = negb (scancode_of c =? 0).
Proof.
  apply Bool.eqb_prop. revert c. apply forall_chars. vm_compute. reflexivity.
Qed.

Lemma unknown_no_shift c : scancode_of c = 0 -> shift_of c = false.
Proof.
  intros H. apply Z.eqb_eq in H. revert H.
  generalize (forall_chars
    (fun c => implb (scancode_of c =? 0) (negb (shift_of c))) eq_refl c).
  destruct (scancode_of c =? 0), (shift_of c); simpl; congruence.
Qed.

Lemma lower_upper_ok c :
  is_lower c = true ->
  scancode_of c = scancode_of (toUpper c)
  /\ shift_of c = false /\ shift_of (toUpper c) = true
  /\ is_upper (toUpper c) = true /\ uchar (toUpper c) = uchar c - 32.
Proof.
  intros H.
  generalize (forall_chars
    (fun c => implb (is_lower c)
       ((scancode_of c =? scancode_of (toUpper c))
        && negb (shift_of c) && shift_of (toUpper c)
        && is_upper (toUpper c) && (uchar (toUpper c) =? uchar c - 32)))
    eq_refl c).
  rewrite H. simpl. rewrite !andb_true_iff, !negb_true_iff, !Z.eqb_eq.
  tauto.
Qed.

Lemma shifted_base_ok :
  Forall (fun p => scancode_of (fst p) = scancode_of (snd p)
                   /\ shift_of (fst p) = true /\ shift_of (snd p) = false
                   /\ scancode_of (fst p) <> 0)
         shifted_base.
Proof. unfold shifted_base. repeat constructor; simpl; discriminate. Qed.

Lemma shift_known c : shift_of c = true -> scancode_of c <> 0.
Proof.
  intros H E. apply unknown_no_shift in E. congruence.
Qed.

Lemma render_warning_all c :
  render fmt_warning [ArgChar c; ArgHex (uchar c)]
  = append "Warning: Unknown character '"
      (String c (append "' (0x" (append (fmt_02X (uchar c)) (append ")" nl))))
  /\ String.length (fmt_02X (uchar c)) = 2%nat.
Proof.
  generalize (forall_chars
    (fun c => String.eqb (render fmt_warning [ArgChar c; ArgHex (uchar c)])
                (append "Warning: Unknown character '"
                   (String c (append "' (0x"
                      (append (fmt_02X (uchar c)) (append ")" nl)))))
              && Nat.eqb (String.length (fmt_02X (uchar c))) 2)
    eq_refl c).
  rewrite andb_true_iff, String.eqb_eq, Nat.eqb_eq. tauto.
Qed.


Lemma known_true c : known c = true <-> scancode_of c <> 0.
Proof.
  unfold known. rewrite negb_true_iff. split.
  - intros H E. apply Z.eqb_eq in E. congruence.
  - intros H. now apply Z.eqb_neq.
Qed.

(** ** Integers and prefixes *)

Lemma blocks_false d : sleep_returns d <-> blocks d = false.
Proof. unfold sleep_returns, blocks. symmetry. apply Z.eqb_neq. Qed.

Lemma to_int_small x : 0 <= x < 2 ^ 31 -> to_int x = x.
Proof. intros H. unfold to_int. rewrite Z.mod_small; lia. Qed.

Lemma to_int_le x : 0 <= x -> to_int x <= x.
Proof.
  intros H. unfold to_int.
  assert (M : (x + 2 ^ 31) mod 2 ^ 32 <= x + 2 ^ 31)
    by (apply Z.mod_le; lia).
  lia.
Qed.

Lemma substring_all s : substring 0 (String.length s) s = s.
Proof. induction s as [|c r IH]; simpl; [reflexivity|]. now rewrite IH. Qed.

Lemma loop_text_small text :
  Z.of_nat (strlen text) < 2 ^ 31 -> loop_text text = text.
Proof.
  intros H. unfold loop_text. rewrite to_int_small by lia.
  rewrite Nat2Z.id. apply substring_all.
Qed.

Lemma list_ascii_of_string_app a b :
  list_ascii_of_string (append a b)
  = list_ascii_of_string a ++ list_ascii_of_string b.
Proof. induction a as [|c r IH]; simpl; [reflexivity|]. now rewrite IH. Qed.

Lemma chars_substring n s :
  list_ascii_of_string (substring 0 n s) = firstn n (list_ascii_of_string s).
Proof.
  revert n. induction s as [|c r IH]; intros [|n]; simpl; try reflexivity.
  now rewrite IH.
Qed.

Lemma strlen_app a b : strlen (append a b) = (strlen a + strlen b)%nat.
Proof. unfold strlen. induction a as [|c r IH]; simpl; [reflexivity|]. now rewrite IH. Qed.

(** ** The loop, step by step *)

Section Loop.

Variable drv : Driver.
Variable context : InterceptionContext.
Variable keyboard : InterceptionDevice.

Lemma send_key_run scancode down tr :
  send_key context keyboard scancode down drv tr
  = (Some tt,
     tr ++ [sent drv context keyboard (strokes tr)
              {| code := scancode;
                 state := if down then INTERCEPTION_KEY_DOWN
                          else INTERCEPTION_KEY_UP;
                 information := 0 |}]).
Proof. reflexivity. Qed.

Lemma Sleep_run ms tr :
  Sleep ms drv tr
  = (if blocks ms then None else Some tt, tr ++ [ESleep (ms mod 2 ^ 32)]).
Proof. reflexivity. Qed.

Lemma Sleep_10 tr : Sleep 10 drv tr = (Some tt, tr ++ [ESleep 10]).
Proof. reflexivity. Qed.

Lemma ret_run {A} (a : A) tr : ret a drv tr = (Some a, tr).
Proof. reflexivity. Qed.

Lemma bind_run {A B} (m : M A) (k : A -> M B) tr :
  bind m k drv tr
  = match m drv tr with
    | (Some a, tr') => k a drv tr'
    | (None, tr') => (None, tr')
    end.
Proof. reflexivity. Qed.

Lemma body_trace c delay_ms tr :
  type_text_body context keyboard c delay_ms drv tr
  = (if body_blocks c delay_ms then None else Some tt,
     tr ++ body_effects drv context keyboard c delay_ms (strokes tr)).
Proof.
  unfold type_text_body, body_effects, body_blocks, known.
  rewrite scancode_shift.
  destruct (scancode_of c =? 0); [reflexivity|]. cbn [negb andb].
  destruct (shift_of c);
    repeat (first [rewrite send_key_run | rewrite Sleep_10 | rewrite ret_run
                  | rewrite bind_run]; cbv beta iota);
    rewrite Sleep_run; destruct (blocks delay_ms);
    cbv beta iota; unfold printf, emit, ret;
    rewrite ?strokes_app; unfold sent; cbn [strokes app]; rewrite ?app_nil_r;
    rewrite <- ?app_assoc; cbn [app]; reflexivity.
Qed.

Lemma strokes_body_effects c delay_ms h :
  strokes (body_effects drv context keyboard c delay_ms h)
  = map (pair keyboard) (key_events c).
Proof.
  unfold body_effects, key_events.
  destruct (scancode_of c =? 0); [reflexivity|].
  destruct (shift_of c), (blocks delay_ms); reflexivity.
Qed.

Lemma type_string_trace s delay_ms tr :
  type_string context keyboard s delay_ms drv tr
  = (if text_blocks s delay_ms then None else Some tt,
     tr ++ text_effects drv context keyboard s delay_ms (strokes tr)).
Proof.
  revert tr. induction s as [|c r IH]; intros tr; simpl.
  - unfold ret. now rewrite app_nil_r.
  - rewrite bind_run, body_trace.
    destruct (body_blocks c delay_ms); cbn [orb].
    + now rewrite app_nil_r.
    + rewrite IH, strokes_app, strokes_body_effects, <- app_assoc. reflexivity.
Qed.

Lemma for_loop_succ n i (body : nat -> M unit) tr :
  for_loop n (S i) body drv tr = for_loop n i (fun j => body (S j)) drv tr.
Proof.
  revert i tr. induction n as [|n IH]; intros i tr; simpl; [reflexivity|].
  rewrite !bind_run. destruct (body (S i) drv tr) as [[u|] tr'];
    [apply IH|reflexivity].
Qed.

(** The indexed loop visits the first [n] characters of the text, from the
    first on. *)
Lemma for_loop_prefix text delay_ms n tr :
  (n <= String.length text)%nat ->
  for_loop n 0
    (fun i => type_text_body context keyboard (char_at text i) delay_ms) drv tr
  = type_string context keyboard (substring 0 n text) delay_ms drv tr.
Proof.
  revert n tr. induction text as [|c r IH]; intros n tr Hn.
  - destruct n; [reflexivity|simpl in Hn; lia].
  - destruct n as [|n]; [reflexivity|].
    cbn [for_loop substring type_string]. rewrite !bind_run.
    change (char_at (String c r) 0) with c.
    destruct (type_text_body context keyboard c delay_ms drv tr) as [[u|] tr'];
      [|reflexivity].
    rewrite for_loop_succ. apply IH. simpl in Hn. lia.
Qed.

Lemma type_text_string text delay_ms tr :
  type_text context keyboard text delay_ms drv tr
  = type_string context keyboard (loop_text text) delay_ms drv tr.
Proof.
  unfold type_text, loop_text. apply for_loop_prefix. unfold strlen.
  pose proof (to_int_le (Z.of_nat (String.length text))). lia.
Qed.

(** The run of [type_text], whatever the delay and the length. *)
Lemma type_text_trace text delay_ms tr :
  type_text context keyboard text delay_ms drv tr
  = (if text_blocks (loop_text text) delay_ms then None else Some tt,
     tr ++ text_effects drv context keyboard (loop_text text) delay_ms (strokes tr)).
Proof. rewrite type_text_string. apply type_string_trace. Qed.

Lemma text_blocks_false s delay_ms :
  blocks delay_ms = false -> text_blocks s delay_ms = false.
Proof.
  intros B. induction s as [|c r IH]; simpl; [reflexivity|].
  unfold body_blocks. rewrite B, andb_false_r. exact IH.
Qed.

(** The run of [type_text] when the pause returns and the length fits. *)
Lemma type_text_returns text delay_ms tr :
  sleep_returns delay_ms -> Z.of_nat (strlen text) < 2 ^ 31 ->
  type_text context keyboard text delay_ms drv tr
  = (Some tt, tr ++ text_effects drv context keyboard text delay_ms (strokes tr)).
Proof.
  intros S L. rewrite type_text_trace, (loop_text_small text L).
  apply blocks_false in S. now rewrite (text_blocks_false _ _ S).
Qed.

End Loop.

(** ** The trace of a whole text *)

Lemma reached_all d cs : blocks d = false -> reached d cs = cs.
Proof.
  intros B. induction cs as [|c r IH]; simpl; [reflexivity|].
  unfold body_blocks. now rewrite B, andb_false_r, IH.
Qed.

Lemma reached_prefix d cs : exists n, reached d cs = firstn n cs.
Proof.
  induction cs as [|c r [n IH]]; [exists 0%nat; reflexivity|]. simpl.
  destruct (body_blocks c d).
  - exists 1%nat. reflexivity.
  - exists (S n). simpl. now rewrite IH.
Qed.

Section TextEffects.

Variable context : InterceptionContext.
Variable keyboard : InterceptionDevice.

(** *** Whatever the delay *)

Lemma strokes_text_effects_reached drv s delay_ms h :
  strokes (text_effects drv context keyboard s delay_ms h)
  = map (pair keyboard)
      (flat_map key_events (reached delay_ms (list_ascii_of_string s))).
Proof.
  revert h. induction s as [|c r IH]; intros h; simpl; [reflexivity|].
  rewrite strokes_app, strokes_body_effects, map_app. f_equal.
  destruct (body_blocks c delay_ms); [reflexivity|apply IH].
Qed.

(** The driver's answers only show in the recorded results. *)
Lemma forget_result_body_effects drv1 drv2 c delay_ms h1 h2 :
  map forget_result (body_effects drv1 context keyboard c delay_ms h1)
  = map forget_result (body_effects drv2 context keyboard c delay_ms h2).
Proof.
  unfold body_effects.
  destruct (scancode_of c =? 0); [reflexivity|].
  destruct (shift_of c), (blocks delay_ms); reflexivity.
Qed.

Lemma forget_result_text_effects drv1 drv2 s delay_ms h1 h2 :
  map forget_result (text_effects drv1 context keyboard s delay_ms h1)
  = map forget_result (text_effects drv2 context keyboard s delay_ms h2).
Proof.
  revert h1 h2. induction s as [|c r IH]; intros h1 h2; simpl; [reflexivity|].
  rewrite !map_app, (forget_result_body_effects drv1 drv2 c delay_ms h1 h2).
  f_equal. destruct (body_blocks c delay_ms); [reflexivity|apply IH].
Qed.

(** *** When the pause returns *)

Section Returns.

Variable delay_ms : Z.
Hypothesis returns : blocks delay_ms = false.

Lemma text_effects_cons drv c r h :
  text_effects drv context keyboard (String c r) delay_ms h
  = body_effects drv context keyboard c delay_ms h
    ++ text_effects drv context keyboard r delay_ms
         (h ++ map (pair keyboard) (key_events c)).
Proof. simpl. unfold body_blocks. now rewrite returns, andb_false_r. Qed.

Lemma progress_body_effects drv c h :
  progress (body_effects drv context keyboard c delay_ms h) = [progress_entry c].
Proof.
  unfold body_effects, progress_entry. rewrite returns.
  destruct (scancode_of c =? 0); [reflexivity|].
  destruct (shift_of c); reflexivity.
Qed.

Lemma strokes_text_effects drv s h :
  strokes (text_effects drv context keyboard s delay_ms h)
  = map (pair keyboard) (flat_map key_events (list_ascii_of_string s)).
Proof. now rewrite strokes_text_effects_reached, reached_all. Qed.

Lemma progress_text_effects drv s h :
  progress (text_effects drv context keyboard s delay_ms h)
  = map progress_entry (list_ascii_of_string s).
Proof.
  revert h. induction s as [|c r IH]; intros h; [reflexivity|].
  rewrite text_effects_cons, progress_app, progress_body_effects, IH.
  reflexivity.
Qed.

Lemma text_effects_app drv a b h :
  text_effects drv context keyboard (append a b) delay_ms h
  = text_effects drv context keyboard a delay_ms h
    ++ text_effects drv context keyboard b delay_ms
         (h ++ map (pair keyboard) (flat_map key_events (list_ascii_of_string a))).
Proof.
  revert h. induction a as [|c r IH]; intros h.
  - simpl. now rewrite app_nil_r.
  - cbn [append]. rewrite !text_effects_cons, IH, <- !app_assoc.
    cbn [list_ascii_of_string flat_map]. now rewrite map_app.
Qed.

(** The time a character takes: the settle pauses and the pacing delay. *)
Lemma elapsed_text_effects drv s h :
  elapsed (text_effects drv context keyboard s delay_ms h)
  = fold_right Z.add 0 (map (char_time delay_ms) (list_ascii_of_string s)).
Proof.
  revert h. induction s as [|c r IH]; intros h; [reflexivity|].
  rewrite text_effects_cons, elapsed_app, IH.
  cbn [list_ascii_of_string map fold_right]. f_equal.
  unfold body_effects, char_time. rewrite returns.
  destruct (scancode_of c =? 0); [reflexivity|].
  destruct (shift_of c); unfold sent; cbn [elapsed app]; lia.
Qed.

End Returns.

(** The delay only shows in the pauses. *)
Lemma without_sleeps_body_effects drv c d1 d2 h :
  blocks d1 = false -> blocks d2 = false ->
  without_sleeps (body_effects drv context keyboard c d1 h)
  = without_sleeps (body_effects drv context keyboard c d2 h).
Proof.
  intros B1 B2. unfold body_effects. rewrite B1, B2.
  destruct (scancode_of c =? 0); [reflexivity|].
  destruct (shift_of c); reflexivity.
Qed.

Lemma without_sleeps_text_effects drv s d1 d2 h :
  blocks d1 = false -> blocks d2 = false ->
  without_sleeps (text_effects drv context keyboard s d1 h)
  = without_sleeps (text_effects drv context keyboard s d2 h).
Proof.
  intros B1 B2. revert h.
  induction s as [|c r IH]; intros h; [reflexivity|].
  rewrite (text_effects_cons d1 B1), (text_effects_cons d2 B2).
  rewrite !without_sleeps_app, IH,
    (without_sleeps_body_effects drv c d1 d2 h B1 B2).
  reflexivity.
Qed.

End TextEffects.

Lemma strokes_type_text_reached drv context keyboard text delay_ms tr :
  strokes (snd (type_text context keyboard text delay_ms drv tr))
  = strokes tr
    ++ map (pair keyboard)
         (flat_map key_events
            (reached delay_ms (list_ascii_of_string (loop_text text)))).
Proof.
  rewrite type_text_trace. cbn [snd].
  now rewrite strokes_app, strokes_text_effects_reached.
Qed.

Lemma strokes_type_text drv context keyboard text delay_ms tr :
  sleep_returns delay_ms -> Z.of_nat (strlen text) < 2 ^ 31 ->
  strokes (snd (type_text context keyboard text delay_ms drv tr))
  = strokes tr
    ++ map (pair keyboard) (flat_map key_events (list_ascii_of_string text)).
Proof.
  intros S L. rewrite strokes_type_text_reached, (loop_text_small text L).
  apply blocks_false in S. now rewrite reached_all.
Qed.

Lemma strlen_nonneg text : 0 <= Z.of_nat (strlen text).
Proof. lia. Qed.

(** ** The claims on the encoder *)

(** C3. Shift state is orthogonal to scan-code identity: a lowercase letter
    and its uppercase form have the same scan code, the first without shift
    and the second with it; each of the 21 shifted symbols
    (exclamation mark to question mark, [shifted_punctuation]) has the scan
    code of its unshifted base key, with shift required. *)
Theorem C3_shift_orthogonal_to_scancode :
  (forall c b,
     is_lower c = true ->
     fst (char_to_scancode c b) = fst (char_to_scancode (toUpper c) b)
     /\ snd (char_to_scancode c b) = false
     /\ snd (char_to_scancode (toUpper c) b) = true
     /\ is_upper (toUpper c) = true
     /\ uchar (toUpper c) = uchar c - 32)
  /\ (forall s k b,
        In (s, k) shifted_base ->
        fst (char_to_scancode s b) = fst (char_to_scancode k b)
        /\ snd (char_to_scancode s b) = true
        /\ snd (char_to_scancode k b) = false)
  /\ string_of_list_ascii shifted_punctuation
     = append "!@#$%^&*()_+{}|:" (append dquote "~<>?").
Proof.
  split; [|split].
  - intros c b H. rewrite !scancode_shift. simpl. now apply lower_upper_ok.
  - intros s k b H. rewrite !scancode_shift. simpl.
    pose proof shifted_base_ok as F. rewrite Forall_forall in F.
    specialize (F (s, k) H). simpl in F. tauto.
  - reflexivity.
Qed.

Lemma C3_witness :
  is_lower "q" = true /\ In ("{"%char, "["%char) shifted_base
  /\ fst (char_to_scancode "q" false) = fst (char_to_scancode "Q" false)
  /\ fst (char_to_scancode "{" false) = fst (char_to_scancode "[" false).
Proof.
  split; [reflexivity|]. split; [simpl; tauto|]. split.
  - apply (proj1 C3_shift_orthogonal_to_scancode "q"%char false). reflexivity.
  - apply (proj1 (proj2 C3_shift_orthogonal_to_scancode) "{"%char "["%char false).
    simpl. tauto.
Defined.

(** C4, as the code has it.  The scan codes of ['1'] to ['9'] are 0x02 to
    0x0A, strictly increasing and contiguous; ['0'] has scan code 0x0B, which
    is outside that run and comes right after the scan code of ['9']: the
    exception is that ['0'], the first digit in character order, is placed
    after ['9'] and not before ['1']. *)
Theorem C4_digit_scancodes :
  (forall i b, 1 <= i <= 9 -> fst (char_to_scancode (digit i) b) = 0x02 + (i - 1))
  /\ (forall i b, 1 <= i < 9 ->
        fst (char_to_scancode (digit (i + 1)) b)
        = fst (char_to_scancode (digit i) b) + 1)
  /\ (forall i b, 1 <= i <= 9 ->
        fst (char_to_scancode "0" b) <> fst (char_to_scancode (digit i) b))
  /\ (forall b, fst (char_to_scancode "0" b) = 0x0B)
  /\ (forall b, fst (char_to_scancode "0" b) = fst (char_to_scancode "9" b) + 1)
  /\ (forall i b, 0 <= i <= 9 -> snd (char_to_scancode (digit i) b) = false).
Proof.
  assert (D : forall i, 0 <= i <= 9 ->
            i = 0 \/ i = 1 \/ i = 2 \/ i = 3 \/ i = 4 \/ i = 5 \/ i = 6
            \/ i = 7 \/ i = 8 \/ i = 9) by (intros; lia).
  assert (T : forall i (P : Z -> Prop), 0 <= i <= 9 ->
            P 0 -> P 1 -> P 2 -> P 3 -> P 4 -> P 5 -> P 6 -> P 7 -> P 8 -> P 9 ->
            P i).
  { intros i P H. destruct (D i H) as [E|[E|[E|[E|[E|[E|[E|[E|[E|E]]]]]]]]];
      subst i; tauto. }
  split; [|split; [|split; [|split; [|split]]]].
  - intros i b H. assert (H0 : 0 <= i <= 9) by lia. revert H. pattern i.
    apply T; [exact H0|..]; cbv beta; intros H; first [lia | reflexivity].
  - intros i b H. assert (H0 : 0 <= i <= 9) by lia. revert H. pattern i.
    apply T; [exact H0|..]; cbv beta; intros H; first [lia | reflexivity].
  - intros i b H. assert (H0 : 0 <= i <= 9) by lia. revert H. pattern i.
    apply T; [exact H0|..]; cbv beta; intros H; first [lia | discriminate].
  - reflexivity.
  - reflexivity.
  - intros i b H. pattern i. apply T; [exact H|..]; reflexivity.
Qed.

Lemma C4_witness :
  1 <= 5 <= 9 /\ fst (char_to_scancode "5" false) = 0x06
  /\ fst (char_to_scancode "6" false) = fst (char_to_scancode "5" false) + 1.
Proof.
  split; [lia|]. split.
  - apply (proj1 C4_digit_scancodes 5 false). lia.
  - apply (proj1 (proj2 C4_digit_scancodes) 5 false). lia.
Defined.

(** C4, as stated, fails: the scan code of ['0'] is contiguous with that of
    ['9']. *)
Lemma C4_zero_follows_nine :
  fst (char_to_scancode "9" false) = 0x0A
  /\ fst (char_to_scancode "0" false) = 0x0B
  /\ ~ (fst (char_to_scancode "0" false) <> fst (char_to_scancode "9" false) + 1).
Proof. repeat split. intros H. apply H. reflexivity. Qed.

(** C9. The encoder sets the shift flag on every path, whatever the caller
    passed in, and an Unknown result comes with the flag false; the loop
    then only prints the warning for such a character: no stroke, so no
    shift stroke, reaches the driver for it. *)
Theorem C9_unknown_never_shifts (c : ascii) :
  (forall b1 b2, char_to_scancode c b1 = char_to_scancode c b2)
  /\ (forall b, fst (char_to_scancode c b) = 0 -> snd (char_to_scancode c b) = false)
  /\ (forall b, fst (char_to_scancode c b) = 0 ->
      forall drv context keyboard delay_ms tr,
        type_text_body context keyboard c delay_ms drv tr
        = (Some tt, tr ++ [EPrintf fmt_warning [ArgChar c; ArgHex (uchar c)]])
        /\ strokes (snd (type_text_body context keyboard c delay_ms drv tr))
           = strokes tr).
Proof.
  split; [|split].
  - intros b1 b2. now rewrite (scancode_shift c b1), (scancode_shift c b2).
  - intros b. rewrite scancode_shift. simpl. apply unknown_no_shift.
  - intros b. rewrite scancode_shift. simpl. intros H drv context keyboard d tr.
    rewrite body_trace. unfold body_effects, body_blocks, known. rewrite H. simpl.
    split; [reflexivity|]. rewrite strokes_app. simpl. apply app_nil_r.
Qed.

Lemma C9_witness :
  fst (char_to_scancode "013" true) = 0
  /\ snd (char_to_scancode "013" true) = false
  /\ strokes (snd (type_text_body 1 1 "013" 100 good_driver [])) = [].
Proof.
  split; [reflexivity|]. split.
  - apply (proj1 (proj2 (C9_unknown_never_shifts "013")) true). reflexivity.
  - apply (proj2 (proj2 (C9_unknown_never_shifts "013")) true eq_refl
             good_driver 1 1 100 []).
Defined.

(** ** The claims on the emission loop *)

Lemma sleep_returns_0 : sleep_returns 0.
Proof. unfold sleep_returns. vm_compute. discriminate. Qed.

Lemma sleep_returns_100 : sleep_returns 100.
Proof. unfold sleep_returns. vm_compute. discriminate. Qed.

Lemma strlen_parts pre c post :
  Z.of_nat (strlen (append pre (String c post))) < 2 ^ 31 ->
  Z.of_nat (strlen pre) < 2 ^ 31 /\ Z.of_nat (strlen post) < 2 ^ 31.
Proof.
  rewrite strlen_app. unfold strlen. simpl String.length. lia.
Qed.

(** C2. When the pause of the delay returns and the length of the text
    fits the loop counter, every occurrence of a shift-requiring character
    contributes exactly shiftDown, keyDown, keyUp, shiftUp, in that order,
    between the strokes of the characters before it and those of the
    characters after it.  On every run, the strokes sent are those of the
    first characters of the text, character by character, so a bracket is
    never cut or mixed with another character.  The text [Ab1!] with delay 0
    gives the twelve strokes of the specification and four typed
    characters. *)
Theorem C2_shift_bracket :
  (forall drv context keyboard pre c post delay_ms tr,
     sleep_returns delay_ms ->
     Z.of_nat (strlen (append pre (String c post))) < 2 ^ 31 ->
     snd (char_to_scancode c false) = true ->
     strokes (snd (type_text context keyboard (append pre (String c post))
                     delay_ms drv tr))
     = strokes (snd (type_text context keyboard pre delay_ms drv tr))
       ++ map (pair keyboard)
            [shiftDown; keyDown (fst (char_to_scancode c false));
             keyUp (fst (char_to_scancode c false)); shiftUp]
       ++ strokes (snd (type_text context keyboard post delay_ms drv [])))
  /\ (forall drv context keyboard text delay_ms tr,
        exists n,
          strokes (snd (type_text context keyboard text delay_ms drv tr))
          = strokes tr
            ++ map (pair keyboard)
                 (flat_map key_events (firstn n (list_ascii_of_string text))))
  /\ (forall drv context keyboard,
        strokes (snd (type_text context keyboard "Ab1!" 0 drv []))
        = map (pair keyboard)
            [shiftDown; keyDown (fst (char_to_scancode "a" false));
             keyUp (fst (char_to_scancode "a" false)); shiftUp;
             keyDown (fst (char_to_scancode "b" false));
             keyUp (fst (char_to_scancode "b" false));
             keyDown (fst (char_to_scancode "1" false));
             keyUp (fst (char_to_scancode "1" false));
             shiftDown; keyDown (fst (char_to_scancode "1" false));
             keyUp (fst (char_to_scancode "1" false)); shiftUp]
        /\ progress (snd (type_text context keyboard "Ab1!" 0 drv []))
           = [Typed "A"; Typed "b"; Typed "1"; Typed "!"]
        /\ typed_count (snd (type_text context keyboard "Ab1!" 0 drv [])) = 4%nat).
Proof.
  split; [|split].
  - intros drv context keyboard pre c post d tr S L H.
    destruct (strlen_parts pre c post L) as [Lpre Lpost].
    fold (shift_of c) in H. fold (scancode_of c).
    rewrite !strokes_type_text by assumption.
    rewrite list_ascii_of_string_app. cbn [list_ascii_of_string].
    rewrite flat_map_app. cbn [flat_map strokes app].
    unfold key_events at 2. rewrite H.
    destruct (scancode_of c =? 0) eqn:E.
    + apply Z.eqb_eq in E. now apply shift_known in H.
    + rewrite !map_app, <- !app_assoc. reflexivity.
  - intros drv context keyboard text d tr.
    rewrite strokes_type_text_reached. unfold loop_text.
    rewrite chars_substring.
    destruct (reached_prefix d
                (firstn (Z.to_nat (to_int (Z.of_nat (strlen text))))
                   (list_ascii_of_string text))) as [n E].
    rewrite E, firstn_firstn. eexists. reflexivity.
  - intros drv context keyboard. unfold typed_count.
    rewrite (type_text_returns drv context keyboard "Ab1!" 0 []
               sleep_returns_0 eq_refl).
    cbn [snd app].
    rewrite (strokes_text_effects context keyboard 0 eq_refl),
      (progress_text_effects context keyboard 0 eq_refl).
    repeat split; reflexivity.
Qed.

Lemma C2_witness :
  sleep_returns 100
  /\ Z.of_nat (strlen "a!b") < 2 ^ 31
  /\ snd (char_to_scancode "!" false) = true
  /\ strokes (snd (type_text 7 3 "a!b" 100 good_driver []))
     = strokes (snd (type_text 7 3 "a" 100 good_driver []))
       ++ [(3, shiftDown); (3, keyDown 0x02); (3, keyUp 0x02); (3, shiftUp)]
       ++ strokes (snd (type_text 7 3 "b" 100 good_driver [])).
Proof.
  split; [exact sleep_returns_100|]. split; [reflexivity|].
  split; [reflexivity|].
  apply (proj1 C2_shift_bracket good_driver 7 3 "a"%string "!"%char "b"%string
           100 [] sleep_returns_100 eq_refl eq_refl).
Defined.

(** C5. A character outside the declared sets encodes to Unknown.  Its
    iteration of the loop prints the warning with the character itself and
    its code in hexadecimal, sends nothing to the driver and returns, so the
    loop goes on.  In a text (the pause of the delay returning, the length
    fitting the loop counter) the run is the run of what precedes, the
    warning, and the run of what follows. *)
Theorem C5_unknown_skipped (x : ascii) (H : declared x = false) :
  (forall b, char_to_scancode x b = (0, false))
  /\ (forall drv context keyboard delay_ms tr,
        type_text_body context keyboard x delay_ms drv tr
        = (Some tt, tr ++ [EPrintf fmt_warning [ArgChar x; ArgHex (uchar x)]]))
  /\ (forall drv context keyboard pre post delay_ms tr,
        sleep_returns delay_ms ->
        Z.of_nat (strlen (append pre (String x post))) < 2 ^ 31 ->
        let before := snd (type_text context keyboard pre delay_ms drv tr) in
        let warning := EPrintf fmt_warning [ArgChar x; ArgHex (uchar x)] in
        let all := snd (type_text context keyboard (append pre (String x post))
                          delay_ms drv tr) in
        all = snd (type_text context keyboard post delay_ms drv (before ++ [warning]))
        /\ fst (type_text context keyboard (append pre (String x post))
                  delay_ms drv tr) = Some tt
        /\ strokes (before ++ [warning]) = strokes before
        /\ strokes all
           = strokes before
             ++ strokes (snd (type_text context keyboard post delay_ms drv []))
        /\ progress all
           = progress before ++ Skipped x
               :: progress (snd (type_text context keyboard post delay_ms drv [])))
  /\ render fmt_warning [ArgChar x; ArgHex (uchar x)]
     = append "Warning: Unknown character '"
         (String x (append "' (0x" (append (fmt_02X (uchar x)) (append ")" nl))))
  /\ String.length (fmt_02X (uchar x)) = 2%nat.
Proof.
  assert (U : scancode_of x = 0).
  { rewrite declared_iff_known in H. apply negb_false_iff in H.
    now apply Z.eqb_eq. }
  assert (B : forall drv context keyboard d h,
            body_effects drv context keyboard x d h
            = [EPrintf fmt_warning [ArgChar x; ArgHex (uchar x)]])
    by (intros; unfold body_effects; now rewrite U).
  split; [|split; [|split; [|apply render_warning_all]]].
  - intros b. rewrite scancode_shift, U. f_equal. now apply unknown_no_shift.
  - intros drv context keyboard d tr. rewrite body_trace, B.
    unfold body_blocks, known. now rewrite U.
  - intros drv context keyboard pre post d tr S L. cbv zeta.
    destruct (strlen_parts pre x post L) as [Lpre Lpost].
    rewrite !type_text_returns by assumption. cbn [snd fst].
    pose proof (proj1 (blocks_false d) S) as R.
    rewrite (text_effects_app context keyboard d R).
    rewrite (text_effects_cons context keyboard d R).
    assert (K : key_events x = []) by (unfold key_events; now rewrite U).
    rewrite K, B. cbn [map]. rewrite !app_nil_r.
    repeat rewrite ?strokes_app, ?progress_app,
      ?(strokes_text_effects context keyboard d R),
      ?(progress_text_effects context keyboard d R).
    cbn [strokes progress flat_map progress_of app].
    change (String.eqb fmt_warning fmt_typed) with false.
    change (String.eqb fmt_warning fmt_warning) with true.
    cbv iota. rewrite !app_nil_r.
    split; [|split; [reflexivity|split; [reflexivity|split]]].
    + rewrite <- !app_assoc. reflexivity.
    + rewrite <- !app_assoc. reflexivity.
    + rewrite <- !app_assoc. reflexivity.
Qed.

Lemma C5_witness :
  declared "013" = false
  /\ char_to_scancode "013" false = (0, false)
  /\ render fmt_warning [ArgChar "013"; ArgHex (uchar "013")]
     = append "Warning: Unknown character '"
         (String "013" (append "' (0x" (append "0D" (append ")" nl))))
  /\ sleep_returns 100
  /\ Z.of_nat (strlen (append "a" (String "013" "b"))) < 2 ^ 31
  /\ fst (type_text 1 1 (append "a" (String "013" "b")) 100 good_driver [])
     = Some tt.
Proof.
  split; [reflexivity|]. split; [|split; [|split; [|split]]].
  - apply (proj1 (C5_unknown_skipped "013" eq_refl) false).
  - apply (proj1 (proj2 (proj2 (proj2 (C5_unknown_skipped "013" eq_refl))))).
  - exact sleep_returns_100.
  - reflexivity.
  - apply (proj1 (proj2 (proj2 (C5_unknown_skipped "013" eq_refl)))
             good_driver 1 1 "a"%string "b"%string 100 []
             sleep_returns_100 eq_refl).
Defined.

(** C8, as stated, fails: the delay -1 is [INFINITE] for [Sleep], so the
    loop stops for ever in the pause after the first typed character and
    the text [ab] gives two strokes where the delay 0 gives four. *)
Lemma C8_infinite_delay_cuts_strokes :
  strokes (snd (type_text 1 1 "ab" 0 good_driver []))
  = [(1, keyDown 0x1E); (1, keyUp 0x1E); (1, keyDown 0x1F); (1, keyUp 0x1F)]
  /\ strokes (snd (type_text 1 1 "ab" (-1) good_driver []))
     = [(1, keyDown 0x1E); (1, keyUp 0x1E)]
  /\ fst (type_text 1 1 "ab" 0 good_driver []) = Some tt
  /\ fst (type_text 1 1 "ab" (-1) good_driver []) = None
  /\ (-1) mod 2 ^ 32 = INFINITE.
Proof. vm_compute. repeat split; reflexivity. Qed.

(** C8, as the code has it.  Two runs over the same text whose delays are
    both returned from by [Sleep] (every [int] but -1) hand the same strokes
    to the driver, in the same order and number, and their traces are equal
    once the pauses are removed.  Whatever the first delay, its strokes are
    the first of those of a run whose delay returns: a delay never changes
    or reorders a stroke. *)
Theorem C8_delay_only_time :
  forall drv context keyboard text d1 d2 tr,
    let tr1 := snd (type_text context keyboard text d1 drv tr) in
    let tr2 := snd (type_text context keyboard text d2 drv tr) in
    (sleep_returns d1 -> sleep_returns d2 ->
     strokes tr1 = strokes tr2
     /\ List.length (strokes tr1) = List.length (strokes tr2)
     /\ without_sleeps tr1 = without_sleeps tr2
     /\ progress tr1 = progress tr2)
    /\ (sleep_returns d2 -> exists rest, strokes tr2 = strokes tr1 ++ rest).
Proof.
  intros drv context keyboard text d1 d2 tr. cbv zeta. split.
  - intros S1 S2. apply blocks_false in S1, S2.
    rewrite !type_text_trace. cbn [snd].
    set (s := loop_text text).
    assert (W : without_sleeps (tr ++ text_effects drv context keyboard s d1 (strokes tr))
                = without_sleeps (tr ++ text_effects drv context keyboard s d2 (strokes tr))).
    { rewrite !without_sleeps_app. f_equal.
      now apply without_sleeps_text_effects. }
    assert (S : strokes (tr ++ text_effects drv context keyboard s d1 (strokes tr))
                = strokes (tr ++ text_effects drv context keyboard s d2 (strokes tr))).
    { rewrite <- strokes_without_sleeps, W. apply strokes_without_sleeps. }
    split; [exact S|]. split; [now rewrite S|]. split; [exact W|].
    rewrite <- progress_without_sleeps, W. apply progress_without_sleeps.
  - intros S2. apply blocks_false in S2.
    rewrite !strokes_type_text_reached.
    set (cs := list_ascii_of_string (loop_text text)).
    rewrite (reached_all d2 cs S2).
    destruct (reached_prefix d1 cs) as [n E]. rewrite E.
    exists (map (pair keyboard) (flat_map key_events (skipn n cs))).
    rewrite <- app_assoc, <- map_app, <- flat_map_app, firstn_skipn.
    reflexivity.
Qed.

Lemma C8_witness :
  sleep_returns 0 /\ sleep_returns 100
  /\ strokes (snd (type_text 1 1 "Ab1!" 0 good_driver []))
     = strokes (snd (type_text 1 1 "Ab1!" 100 good_driver [])).
Proof.
  split; [exact sleep_returns_0|]. split; [exact sleep_returns_100|].
  apply (proj1 (C8_delay_only_time good_driver 1 1 "Ab1!" 0 100 [])
           sleep_returns_0 sleep_returns_100).
Defined.

(** The delay does change the time spent. *)
Example elapsed_Ab1_0 :
  elapsed (snd (type_text 1 1 "Ab1!" 0 good_driver [])) = 80.
Proof. reflexivity. Qed.

Example elapsed_Ab1_100 :
  elapsed (snd (type_text 1 1 "Ab1!" 100 good_driver [])) = 480.
Proof. reflexivity. Qed.

Lemma text_blocks_known s d :
  text_blocks s d = blocks d && existsb known (list_ascii_of_string s).
Proof.
  induction s as [|c r IH]; simpl; [now rewrite andb_false_r|].
  rewrite IH. unfold body_blocks.
  destruct (known c), (blocks d); reflexivity.
Qed.






(** ** [atoi] reads back what [%d] prints *)

Lemma digits_value_step c r acc k :
  isdigit c = true -> uchar c - uchar "0" = k ->
  digits_value (String c r) acc = digits_value r (acc * 10 + k).
Proof. intros D K. simpl. now rewrite D, K. Qed.

Ltac digit_step k := rewrite (digits_value_step _ _ _ k) by reflexivity.

Lemma digits_value_acc d (acc : positive) :
  digits_value (NilEmpty.string_of_uint d) (Z.pos acc)
  = Z.pos (Pos.of_uint_acc d acc).
Proof.
  revert acc. induction d; intros acc; simpl NilEmpty.string_of_uint;
    [reflexivity | digit_step 0 | digit_step 1 | digit_step 2 | digit_step 3
     | digit_step 4 | digit_step 5 | digit_step 6 | digit_step 7
     | digit_step 8 | digit_step 9];
    cbn [Pos.of_uint_acc]; rewrite <- IHd; f_equal; lia.
Qed.

Lemma digits_value_uint d :
  digits_value (NilEmpty.string_of_uint d) 0 = Z.of_N (Pos.of_uint d).
Proof.
  induction d; simpl NilEmpty.string_of_uint;
    [reflexivity | digit_step 0 | digit_step 1 | digit_step 2 | digit_step 3
     | digit_step 4 | digit_step 5 | digit_step 6 | digit_step 7
     | digit_step 8 | digit_step 9];
    cbn [Pos.of_uint]; first [exact IHd | apply digits_value_acc].
Qed.

Lemma digits_value_pos p :
  digits_value (NilZero.string_of_uint (Pos.to_uint p)) 0 = Z.pos p.
Proof.
  pose proof (DecimalPos.Unsigned.to_uint_nonnil p) as N.
  pose proof (DecimalPos.Unsigned.of_to p) as E.
  destruct (Pos.to_uint p) eqn:U; [congruence| ..];
    unfold NilZero.string_of_uint; rewrite digits_value_uint, E; reflexivity.
Qed.

Lemma string_of_uint_head d :
  d <> Decimal.Nil ->
  exists c r, NilZero.string_of_uint d = String c r
              /\ isspace c = false /\ isdigit c = true.
Proof.
  intros N. destruct d; [congruence| ..]; simpl; eexists; eexists;
    repeat split; reflexivity.
Qed.

Lemma atoi_unsigned d :
  d <> Decimal.Nil ->
  atoi (NilZero.string_of_uint d)
  = saturate (digits_value (NilZero.string_of_uint d) 0).
Proof.
  intros N. destruct (string_of_uint_head d N) as (c & r & E & Hs & Hd).
  rewrite E. unfold atoi. simpl skip_spaces. rewrite Hs.
  destruct c as [[] [] [] [] [] [] [] []]; try discriminate Hd; reflexivity.
Qed.

Lemma atoi_fmt_d n : INT_MIN <= n <= INT_MAX -> atoi (fmt_d n) = n.
Proof.
  unfold INT_MIN, INT_MAX. intros H. unfold fmt_d.
  destruct n as [|p|p]; [reflexivity| |]; simpl Z.to_int; simpl NilZero.string_of_int.
  - rewrite atoi_unsigned by apply DecimalPos.Unsigned.to_uint_nonnil.
    rewrite digits_value_pos. unfold saturate, INT_MIN, INT_MAX.
    destruct (Z.pos p <? -2147483648) eqn:A; [apply Z.ltb_lt in A; lia|].
    destruct (2147483647 <? Z.pos p) eqn:B; [apply Z.ltb_lt in B; lia|].
    reflexivity.
  - unfold atoi. simpl skip_spaces. cbv [isspace]. simpl.
    rewrite digits_value_pos. unfold saturate, INT_MIN, INT_MAX.
    change (- Z.pos p) with (Z.neg p).
    destruct (Z.neg p <? -2147483648) eqn:A; [apply Z.ltb_lt in A; lia|].
    destruct (2147483647 <? Z.neg p) eqn:B; [apply Z.ltb_lt in B; lia|].
    reflexivity.
Qed.

Lemma atoi_range s : INT_MIN <= atoi s <= INT_MAX.
Proof.
  assert (S : forall x, INT_MIN <= saturate x <= INT_MAX).
  { intros x. unfold saturate, INT_MIN, INT_MAX.
    destruct (x <? -2147483648) eqn:A; [lia|].
    destruct (2147483647 <? x) eqn:B; [lia|].
    apply Z.ltb_ge in A, B. lia. }
  unfold atoi. destruct (skip_spaces s) as [|c r]; [apply S|].
  destruct c as [[] [] [] [] [] [] [] []]; apply S.
Qed.

(** ** The steps of [main] *)

Lemma printf_run fmt args drv tr :
  printf fmt args drv tr = (Some tt, tr ++ [EPrintf fmt args]).
Proof. reflexivity. Qed.

Lemma fprintf_stderr_run fmt args drv tr :
  fprintf_stderr fmt args drv tr = (Some tt, tr ++ [EFprintfStderr fmt args]).
Proof. reflexivity. Qed.

Lemma create_context_run drv tr :
  interception_create_context drv tr
  = (Some (drv_create_context drv), tr ++ [ECreateContext (drv_create_context drv)]).
Proof. reflexivity. Qed.

Lemma set_filter_run context filter drv tr :
  interception_set_filter context filter drv tr
  = (Some tt, tr ++ [ESetFilter context filter]).
Proof. reflexivity. Qed.

Lemma wait_run context drv tr :
  interception_wait context drv tr
  = (Some (drv_wait drv), tr ++ [EWait context (drv_wait drv)]).
Proof. reflexivity. Qed.

Lemma is_invalid_run device drv tr :
  interception_is_invalid device drv tr = (Some (drv_is_invalid drv device), tr).
Proof. reflexivity. Qed.

Lemma destroy_context_run context drv tr :
  interception_destroy_context context drv tr
  = (Some tt, tr ++ [EDestroyContext context]).
Proof. reflexivity. Qed.

Lemma Sleep_500 drv tr : Sleep 500 drv tr = (Some tt, tr ++ [ESleep 500]).
Proof. reflexivity. Qed.

Lemma Sleep_2000 drv tr : Sleep 2000 drv tr = (Some tt, tr ++ [ESleep 2000]).
Proof. reflexivity. Qed.

Ltac run_step :=
  first [ rewrite printf_run | rewrite fprintf_stderr_run
        | rewrite create_context_run | rewrite set_filter_run
        | rewrite wait_run | rewrite is_invalid_run
        | rewrite destroy_context_run | rewrite Sleep_500 | rewrite Sleep_2000
        | rewrite ret_run | rewrite bind_run ];
  cbv beta iota.

(** The ways through [main], by its three tests; in the last one the goal
    is left at the call of [type_text]. *)
Ltac main_cases argv drv :=
  unfold run, main; cbv zeta;
  destruct (Z.of_nat (List.length argv) <? 2) eqn:A;
  [ repeat run_step
  | repeat run_step;
    destruct (drv_create_context drv =? 0) eqn:C;
    [ repeat run_step
    | repeat run_step;
      destruct (drv_is_invalid drv (drv_wait drv)) eqn:I;
      [ repeat run_step
      | repeat run_step; cbn [app] ] ] ].

Lemma main_failure argv drv :
  main_fails argv drv ->
  fst (run (main argv) drv) = Some 1
  /\ strokes (snd (run (main argv) drv)) = []
  /\ progress (snd (run (main argv) drv)) = [].
Proof.
  unfold main_fails. intros H. main_cases argv drv;
    try (repeat split; reflexivity).
  apply Z.ltb_ge in A. apply Z.eqb_neq in C.
  destruct H as [H|[H|H]]; [lia|contradiction|discriminate].
Qed.

Lemma main_success argv drv :
  ~ main_fails argv drv ->
  let text := nth 1 argv EmptyString in
  let context := drv_create_context drv in
  let keyboard := drv_wait drv in
  let typing := type_text context keyboard text (delay_arg argv) drv
                  (main_prelude text (delay_arg argv) context keyboard) in
  run (main argv) drv
  = match fst typing with
    | Some _ =>
        (Some 0,
         snd typing
         ++ [EPrintf fmt_done [ArgInt (to_int (Z.of_nat (strlen text)))];
             EDestroyContext context])
    | None => (None, snd typing)
    end.
Proof.
  unfold main_fails, delay_arg, main_prelude, fmt_delay. intros H. cbv zeta.
  main_cases argv drv.
  - exfalso. apply H. left. apply Z.ltb_lt in A. lia.
  - exfalso. apply H. right. left. now apply Z.eqb_eq.
  - exfalso. apply H. right. right. reflexivity.
  - match goal with
    | |- context [type_text ?c ?k ?t ?d drv ?tr] =>
        destruct (type_text c k t d drv tr) as [[u|] tr']
    end; cbn [fst snd]; [|reflexivity].
    repeat run_step. rewrite <- app_assoc. reflexivity.
Qed.

Lemma main_fails_dec argv drv : main_fails argv drv \/ ~ main_fails argv drv.
Proof.
  unfold main_fails.
  destruct (lt_dec (List.length argv) 2) as [L|L]; [tauto|].
  destruct (Z.eq_dec (drv_create_context drv) 0) as [C|C]; [tauto|].
  destruct (drv_is_invalid drv (drv_wait drv)); [tauto|].
  right. intros [H|[H|H]]; [contradiction|contradiction|discriminate].
Qed.

(** When [main] fails it has not asked the driver to send anything, so the
    run does not depend on how sends would be answered. *)
Lemma main_failure_send argv drv f :
  main_fails argv drv -> run (main argv) (with_send drv f) = run (main argv) drv.
Proof.
  unfold main_fails. intros H. unfold run, main. cbv zeta.
  destruct (Z.of_nat (List.length argv) <? 2) eqn:A; [reflexivity|].
  repeat run_step.
  change (drv_create_context (with_send drv f)) with (drv_create_context drv).
  destruct (drv_create_context drv =? 0) eqn:C; [reflexivity|].
  repeat run_step.
  change (drv_is_invalid (with_send drv f)) with (drv_is_invalid drv).
  change (drv_wait (with_send drv f)) with (drv_wait drv).
  destruct (drv_is_invalid drv (drv_wait drv)) eqn:I; [reflexivity|].
  apply Z.ltb_ge in A. apply Z.eqb_neq in C.
  destruct H as [H|[H|H]]; [lia|contradiction|discriminate].
Qed.

Lemma blocks_int d :
  INT_MIN <= d <= INT_MAX -> (blocks d = true <-> d = -1).
Proof.
  unfold INT_MIN, INT_MAX, blocks, INFINITE. intros H. rewrite Z.eqb_eq.
  destruct (Z_lt_le_dec d 0) as [N|P].
  - assert (M : d mod 2 ^ 32 = 2 ^ 32 + d)
      by (symmetry; apply (Z.mod_unique _ _ (-1)); lia).
    rewrite M. lia.
  - rewrite Z.mod_small by lia. lia.
Qed.

Lemma fst_type_text drv context keyboard text delay_ms tr :
  fst (type_text context keyboard text delay_ms drv tr)
  = if blocks delay_ms
       && existsb known (list_ascii_of_string (loop_text text))
    then None else Some tt.
Proof. rewrite type_text_trace. cbn [fst]. now rewrite text_blocks_known. Qed.

(** ** The claims on the program *)

(** C1.  On the text a, e-acute (byte 233, not in the table), b the loop
    types two characters and warns once, and [main] returns 0; the count it
    reports in its last line is [strlen(text)], 3, not the 2 typed. *)
Theorem C1_reported_count_is_strlen :
  let argv := ["interception-type.exe"; String "a" (String "233" "b")]%string in
  let rc := fst (run (main argv) good_driver) in
  let tr := snd (run (main argv) good_driver) in
  rc = Some 0
  /\ progress tr = [Typed "a"; Skipped "233"; Typed "b"]
  /\ typed_count tr = 2%nat
  /\ warning_count tr = 1%nat
  /\ strokes tr = [(1, keyDown 0x1E); (1, keyUp 0x1E);
                   (1, keyDown 0x1F); (1, keyUp 0x1F)]
  /\ nth_error tr (List.length tr - 2) = Some (EPrintf fmt_done [ArgInt 3])
  /\ render fmt_done [ArgInt 3]
     = append nl (append "Done! Typed 3 characters" nl).
Proof. vm_compute. repeat split; reflexivity. Qed.

(** C6, as stated, fails: on a driver that refuses every send, the loop
    goes on sending after the first refusal, through the whole text, and
    [main] reports nothing on stderr and returns 0. *)
Lemma C6_sends_continue_after_failure :
  snd (run (type_text 1 1 "ab" 0) deaf_driver)
  = [ESend 1 1 (keyDown 0x1E) 1 0; ESleep 10;
     ESend 1 1 (keyUp 0x1E) 1 0; ESleep 0; EPrintf fmt_typed [ArgChar "a"];
     ESend 1 1 (keyDown 0x1F) 1 0; ESleep 10;
     ESend 1 1 (keyUp 0x1F) 1 0; ESleep 0; EPrintf fmt_typed [ArgChar "b"]]
  /\ fst (run (main ["interception-type.exe"; "ab"]%string) deaf_driver) = Some 0
  /\ stderr_lines (snd (run (main ["interception-type.exe"; "ab"]%string)
                          deaf_driver)) = []
  /\ List.length (strokes (snd (run (main ["interception-type.exe"; "ab"]%string)
                                  deaf_driver))) = 4%nat.
Proof. vm_compute. repeat split; reflexivity. Qed.

(** C6, as the code has it.  The result of a send is dropped: whatever the
    driver answers, the loop returns or not as it would, and leaves the same
    trace up to the recorded answers, so nothing is retried or cut short
    because of a failed send; when the pause of the delay returns and the
    length fits the loop counter, the driver is handed the strokes of the
    whole text, each once and in order.  [main] too returns the same code
    and leaves the same trace up to the recorded answers. *)
Theorem C6_send_failure_ignored :
  forall drv f context keyboard text delay_ms tr argv,
    let drv' := with_send drv f in
    (sleep_returns delay_ms -> Z.of_nat (strlen text) < 2 ^ 31 ->
     strokes (snd (type_text context keyboard text delay_ms drv' tr))
     = strokes tr
       ++ map (pair keyboard) (flat_map key_events (list_ascii_of_string text)))
    /\ fst (type_text context keyboard text delay_ms drv' tr)
       = fst (type_text context keyboard text delay_ms drv tr)
    /\ map forget_result (snd (type_text context keyboard text delay_ms drv' tr))
       = map forget_result (snd (type_text context keyboard text delay_ms drv tr))
    /\ fst (run (main argv) drv') = fst (run (main argv) drv)
    /\ map forget_result (snd (run (main argv) drv'))
       = map forget_result (snd (run (main argv) drv)).
Proof.
  intros drv f context keyboard text d tr argv drv'.
  assert (T : forall c k t dl tr0,
            fst (type_text c k t dl drv' tr0) = fst (type_text c k t dl drv tr0)
            /\ map forget_result (snd (type_text c k t dl drv' tr0))
               = map forget_result (snd (type_text c k t dl drv tr0))).
  { intros. rewrite !fst_type_text, !type_text_trace. cbn [snd].
    split; [reflexivity|]. rewrite !map_app. f_equal.
    apply forget_result_text_effects. }
  split; [|split; [apply T|split; [apply T|]]].
  - intros S L. now apply strokes_type_text.
  - destruct (main_fails_dec argv drv) as [F|F].
    + unfold drv'. rewrite main_failure_send by exact F. split; reflexivity.
    + assert (F' : ~ main_fails argv drv') by exact F.
      rewrite (main_success argv drv' F'), (main_success argv drv F). cbv zeta.
      unfold drv'. cbn [with_send drv_create_context drv_wait]. fold drv'.
      destruct (T (drv_create_context drv) (drv_wait drv) (nth 1 argv EmptyString)
                  (delay_arg argv)
                  (main_prelude (nth 1 argv EmptyString) (delay_arg argv)
                     (drv_create_context drv) (drv_wait drv))) as [T1 T2].
      rewrite T1.
      destruct (fst (type_text (drv_create_context drv) (drv_wait drv)
                       (nth 1 argv EmptyString) (delay_arg argv) drv _));
        cbn [fst snd]; split; try reflexivity; [|exact T2].
      rewrite !map_app, T2. reflexivity.
Qed.

Lemma C6_witness :
  sleep_returns 0 /\ Z.of_nat (strlen "ab") < 2 ^ 31
  /\ strokes (snd (type_text 1 1 "ab" 0 (with_send good_driver (fun _ _ _ => 0)) []))
     = [(1, keyDown 0x1E); (1, keyUp 0x1E); (1, keyDown 0x1F); (1, keyUp 0x1F)].
Proof.
  split; [exact sleep_returns_0|]. split; [reflexivity|].
  apply (proj1 (C6_send_failure_ignored good_driver (fun _ _ _ => 0) 1 1 "ab" 0
                  [] []) sleep_returns_0 eq_refl).
Defined.

(** C7, as stated, fails: a negative delay argument is taken as it is. *)
Lemma C7_negative_delay_accepted :
  let argv := ["interception-type.exe"; "a"; "-5"]%string in
  let tr := snd (run (main argv) good_driver) in
  atoi "-5" = -5
  /\ ~ (0 <= atoi "-5")
  /\ fst (run (main argv) good_driver) = Some 0
  /\ nth_error tr 3 = Some (EPrintf fmt_delay [ArgInt (-5)])
  /\ render fmt_delay [ArgInt (-5)]
     = append "Delay: -5ms per character" (append nl nl)
  /\ In (ESleep (-5 mod 2 ^ 32)) tr.
Proof.
  vm_compute. repeat split; try reflexivity.
  - intros H. apply H. reflexivity.
  - tauto.
Qed.

(** C7, as the code has it.  [main] returns 1, before any stroke is sent,
    when the text argument is missing, when no context is obtained or when
    the device is invalid.  Otherwise the delay is 100 without a third
    argument and [atoi] of it with one: a signed integer in the range of
    [int], negative values included, on which the program makes no check.
    Then [main] either returns 0, after the loop, the last line and the
    release of the context, warnings or not, or never returns: that happens
    exactly when the delay is -1, which [Sleep] takes as [INFINITE], and a
    character of the text is typed. *)
Theorem C7_cli_exit_codes (argv : list string) (drv : Driver) :
  let rc := fst (run (main argv) drv) in
  let tr := snd (run (main argv) drv) in
  let text := nth 1 argv EmptyString in
  let context := drv_create_context drv in
  let keyboard := drv_wait drv in
  let fails := (List.length argv < 2)%nat
               \/ context = 0
               \/ drv_is_invalid drv keyboard = true in
  (fails -> rc = Some 1 /\ strokes tr = [] /\ progress tr = [])
  /\ (~ fails ->
      exists delay_ms,
        (List.length argv = 2%nat -> delay_ms = 100)
        /\ ((2 < List.length argv)%nat ->
            delay_ms = atoi (nth 2 argv EmptyString))
        /\ INT_MIN <= delay_ms <= INT_MAX
        /\ let typing := type_text context keyboard text delay_ms drv
                           (main_prelude text delay_ms context keyboard) in
           (rc = Some 0 \/ rc = None)
           /\ (rc = Some 0 ->
               tr = snd typing
                    ++ [EPrintf fmt_done [ArgInt (to_int (Z.of_nat (strlen text)))];
                        EDestroyContext context])
           /\ (rc = None -> tr = snd typing)
           /\ (rc = None
               <-> delay_ms = -1
                   /\ existsb known (list_ascii_of_string (loop_text text)) = true))
  /\ (forall n, INT_MIN <= n <= INT_MAX -> atoi (fmt_d n) = n).
Proof.
  cbv zeta. split; [|split].
  - intros F. now apply main_failure.
  - intros F. rewrite (main_success argv drv F). cbv zeta.
    exists (delay_arg argv).
    assert (R : INT_MIN <= delay_arg argv <= INT_MAX).
    { unfold delay_arg.
      destruct (3 <=? Z.of_nat (List.length argv)); [apply atoi_range|].
      unfold INT_MIN, INT_MAX. lia. }
    split; [|split; [|split; [exact R|]]].
    + intros L. unfold delay_arg. rewrite L. reflexivity.
    + intros L. unfold delay_arg.
      destruct (3 <=? Z.of_nat (List.length argv)) eqn:A;
        [reflexivity|apply Z.leb_gt in A; lia].
    + rewrite fst_type_text.
      pose proof (blocks_int (delay_arg argv) R) as B.
      destruct (blocks (delay_arg argv)) eqn:E; cbn [andb].
      * assert (D : delay_arg argv = -1) by now apply B.
        destruct (existsb known _) eqn:K; cbn [fst snd].
        -- repeat split; auto; discriminate.
        -- repeat split; auto; try discriminate. intros [_ X]. discriminate.
      * cbn [fst snd]. repeat split; auto; try discriminate.
        intros [X _]. apply B in X. discriminate.
  - apply atoi_fmt_d.
Qed.

Lemma C7_witness :
  fst (run (main ["interception-type.exe"]%string) good_driver) = Some 1
  /\ atoi (fmt_d 250) = 250.
Proof.
  split.
  - apply (proj1 (C7_cli_exit_codes ["interception-type.exe"]%string good_driver)).
    left. simpl. lia.
  - apply (proj2 (proj2 (C7_cli_exit_codes [] good_driver)) 250).
    unfold INT_MIN, INT_MAX. lia.
Defined.

(** With the delay -1 and a typed character [main] never returns, and the
    context is never destroyed. *)
Example main_blocks_on_minus_one :
  let r := run (main ["interception-type.exe"; "ab"; "-1"]%string) good_driver in
  fst r = None
  /\ strokes (snd r) = [(1, keyDown 0x1E); (1, keyUp 0x1E)]
  /\ last (snd r) (ESleep 0) = ESleep INFINITE.
Proof. vm_compute. repeat split; reflexivity. Qed.

(** * Further properties of the code *)

(** ** The encoder *)

Lemma encoder_range_checked c :
  ((0 <=? scancode_of c) && (scancode_of c <=? 0x39)
   && implb (known c) (0x02 <=? scancode_of c)
   && implb (is_lower c)
        ((scancode_of c =? 0x1E + (uchar c - uchar "a"))
         && (0x1E <=? scancode_of c) && (scancode_of c <=? 0x37))
   && implb (is_upper c)
        ((scancode_of c =? 0x1E + (uchar c - uchar "A"))
         && (0x1E <=? scancode_of c) && (scancode_of c <=? 0x37))
   && implb (is_digit c) (scancode_of c =? 0x02 + (uchar c - uchar "1") mod 10))
  = true.
Proof. revert c. apply forall_chars. vm_compute. reflexivity. Qed.

(** X1.  Every scan code the encoder returns lies between 0 and 0x39, so the
    conversion to [unsigned short] never truncates, and a known character
    has a code of at least 0x02.  A letter gets 0x1E plus its position in
    the alphabet, whatever its case; a digit gets 0x02 plus its position in
    the keyboard row 1, 2, ..., 9, 0. *)
Theorem encoder_range (c : ascii) (b : bool) :
  let sc := fst (char_to_scancode c b) in
  0 <= sc <= 0x39
  /\ (sc <> 0 -> 0x02 <= sc)
  /\ (is_lower c = true ->
      sc = 0x1E + (uchar c - uchar "a") /\ 0x1E <= sc <= 0x37)
  /\ (is_upper c = true ->
      sc = 0x1E + (uchar c - uchar "A") /\ 0x1E <= sc <= 0x37)
  /\ (is_digit c = true -> sc = 0x02 + (uchar c - uchar "1") mod 10).
Proof.
  cbv zeta. rewrite scancode_shift. cbn [fst].
  pose proof (encoder_range_checked c) as H.
  rewrite !andb_true_iff in H.
  destruct H as [[[[[H0 H1] H2] H3] H4] H5].
  apply Z.leb_le in H0, H1.
  split; [lia|]. split; [|split; [|split]].
  - intros N. apply known_true in N. rewrite N in H2. cbn [implb] in H2. now apply Z.leb_le in H2.
  - intros L. rewrite L in H3. cbn [implb] in H3. rewrite !andb_true_iff in H3.
    destruct H3 as [[A B] C]. apply Z.eqb_eq in A. apply Z.leb_le in B, C. lia.
  - intros U. rewrite U in H4. cbn [implb] in H4. rewrite !andb_true_iff in H4.
    destruct H4 as [[A B] C]. apply Z.eqb_eq in A. apply Z.leb_le in B, C. lia.
  - intros D. rewrite D in H5. cbn [implb] in H5. now apply Z.eqb_eq in H5.
Qed.

Lemma encoder_range_witness :
  is_lower "q" = true /\ fst (char_to_scancode "q" false) = 0x2E
  /\ is_digit "0" = true /\ fst (char_to_scancode "0" false) = 0x0B.
Proof.
  split; [reflexivity|]. split.
  - apply (proj1 (proj2 (proj2 (encoder_range "q" false))) eq_refl).
  - split; [reflexivity|].
    apply (proj2 (proj2 (proj2 (proj2 (encoder_range "0" false)))) eq_refl).
Defined.

Lemma high_bytes_unknown_checked c :
  implb (128 <=? uchar c) ((scancode_of c =? 0) && negb (shift_of c)) = true.
Proof. revert c. apply forall_chars. vm_compute. reflexivity. Qed.

(** X2.  The encoder knows exactly the characters of the declared sets, 97 in
    all; every byte from 0x80 up is Unknown, so each byte of a multi-byte
    character is skipped on its own. *)
Theorem encoder_known_chars (c : ascii) (b : bool) :
  (fst (char_to_scancode c b) <> 0 <-> declared c = true)
  /\ (128 <= uchar c -> char_to_scancode c b = (0, false))
  /\ List.length (filter known all_chars) = 97%nat.
Proof.
  rewrite scancode_shift. cbn [fst]. split; [|split].
  - rewrite declared_iff_known. fold (known c). symmetry. apply known_true.
  - intros H. pose proof (high_bytes_unknown_checked c) as K.
    apply Z.leb_le in H. rewrite H in K. simpl in K.
    rewrite andb_true_iff, negb_true_iff in K. destruct K as [K1 K2].
    apply Z.eqb_eq in K1. now rewrite K1, K2.
  - vm_compute. reflexivity.
Qed.

Lemma encoder_known_chars_witness :
  128 <= uchar "233" /\ char_to_scancode "233" true = (0, false).
Proof.
  split; [vm_compute; discriminate|].
  apply (proj1 (proj2 (encoder_known_chars "233" true))).
  vm_compute. discriminate.
Defined.

Lemma collisions_checked :
  forallb (fun c => forallb (fun d =>
      implb (negb (Ascii.eqb c d))
        (Bool.eqb (known c && same_code c d)
                  (in_pairs c d colliding || in_pairs d c colliding)))
    all_chars) all_chars = true.
Proof. vm_compute. reflexivity. Qed.

Lemma shift_code_checked c :
  Bool.eqb (scancode_of c =? 0x2A) (Ascii.eqb c "m" || Ascii.eqb c "M") = true.
Proof. revert c. apply forall_chars. vm_compute. reflexivity. Qed.

Lemma same_code_true c d :
  same_code c d = true <-> char_to_scancode c false = char_to_scancode d false.
Proof.
  unfold same_code. rewrite andb_true_iff, Z.eqb_eq, Bool.eqb_true_iff.
  rewrite (scancode_shift c false), (scancode_shift d false). split.
  - intros [A B]. now rewrite A, B.
  - intros E. inversion E. tauto.
Qed.

(** X3.  Two distinct characters get the same scan code and shift flag exactly
    when they are one of the fourteen pairs of [colliding]: the letter
    formula runs through the codes of the punctuation keys.  It also gives
    [m] and [M], and no other character, the scan code 0x2A that the loop
    uses for the left shift key. *)
Theorem encoder_collisions (c d : ascii) :
  (c <> d ->
   (fst (char_to_scancode c false) <> 0
    /\ char_to_scancode c false = char_to_scancode d false)
   <-> (in_pairs c d colliding || in_pairs d c colliding) = true)
  /\ (fst (char_to_scancode c false) = 0x2A <-> c = "m"%char \/ c = "M"%char).
Proof.
  fold (scancode_of c). split.
  - intros N.
    pose proof collisions_checked as H. rewrite forallb_forall in H.
    specialize (H c (all_chars_complete c)). rewrite forallb_forall in H.
    specialize (H d (all_chars_complete d)).
    apply Ascii.eqb_neq in N. rewrite N in H. cbn [negb implb] in H.
    apply Bool.eqb_prop in H. rewrite <- H, andb_true_iff.
    rewrite known_true, same_code_true. reflexivity.
  - pose proof (shift_code_checked c) as H. apply Bool.eqb_prop in H.
    rewrite <- Z.eqb_eq, H, orb_true_iff, !Ascii.eqb_eq. reflexivity.
Qed.

Lemma encoder_collisions_witness :
  "j"%char <> ";"%char
  /\ char_to_scancode "j" false = char_to_scancode ";" false.
Proof.
  split; [discriminate|].
  apply (proj1 (encoder_collisions "j" ";") ltac:(discriminate)).
  reflexivity.
Defined.

(** ** The emission loop *)

Lemma key_events_same_code c d :
  char_to_scancode c false = char_to_scancode d false ->
  key_events c = key_events d.
Proof.
  rewrite (scancode_shift c false), (scancode_shift d false).
  intros E. inversion E as [[A B]]. unfold key_events. now rewrite A, B.
Qed.


Lemma known_same_code c d :
  char_to_scancode c false = char_to_scancode d false -> known c = known d.
Proof.
  rewrite (scancode_shift c false), (scancode_shift d false).
  intros E. inversion E as [[A B]]. unfold known. now rewrite A.
Qed.

Lemma reached_same_encoding delay_ms cs1 cs2 :
  Forall2 same_encoding cs1 cs2 ->
  flat_map key_events (reached delay_ms cs1)
  = flat_map key_events (reached delay_ms cs2).
Proof.
  induction 1 as [|c d cs1 cs2 E _ IH]; [reflexivity|].
  cbn [reached flat_map]. unfold body_blocks.
  rewrite (key_events_same_code c d E), (known_same_code c d E).
  destruct (known d && blocks delay_ms); [reflexivity|]. now rewrite IH.
Qed.

Lemma Forall2_firstn {A} (R : A -> A -> Prop) n l1 l2 :
  Forall2 R l1 l2 -> Forall2 R (firstn n l1) (firstn n l2).
Proof.
  intros F. revert n. induction F as [|a b l1 l2 H _ IH]; intros [|n]; simpl;
    constructor; auto.
Qed.

Lemma Forall2_same {A} (R : A -> A -> Prop) l :
  (forall a, R a a) -> Forall2 R l l.
Proof. intros H. induction l; constructor; auto. Qed.

(** X4.  The strokes sent for a text depend on its characters only through the
    encoder: replacing a character by one with the same scan code and shift
    flag, such as [j] by the semicolon, leaves the strokes as they are, so
    the receiving side cannot tell the two texts apart. *)
Theorem same_code_same_strokes (c d : ascii)
    (H : char_to_scancode c false = char_to_scancode d false) :
  forall drv context keyboard pre post delay_ms tr,
    strokes (snd (type_text context keyboard (append pre (String c post))
                    delay_ms drv tr))
    = strokes (snd (type_text context keyboard (append pre (String d post))
                      delay_ms drv tr)).
Proof.
  intros. rewrite !strokes_type_text_reached. do 2 f_equal.
  apply reached_same_encoding. unfold loop_text.
  rewrite !chars_substring, !strlen_app.
  change (strlen (String c post)) with (strlen (String d post)).
  apply Forall2_firstn. rewrite !list_ascii_of_string_app.
  apply Forall2_app; [apply Forall2_same; reflexivity|].
  constructor; [exact H|apply Forall2_same; reflexivity].
Qed.

Lemma same_code_same_strokes_witness :
  char_to_scancode "j" false = char_to_scancode ";" false
  /\ strokes (snd (type_text 1 1 "a j" 0 good_driver []))
     = strokes (snd (type_text 1 1 "a ;" 0 good_driver [])).
Proof.
  split; [reflexivity|].
  apply (same_code_same_strokes "j" ";" eq_refl good_driver 1 1 "a "%string
           EmptyString 0 []).
Defined.

Lemma type_string_app drv context keyboard a b delay_ms tr :
  type_string context keyboard (append a b) delay_ms drv tr
  = (type_string context keyboard a delay_ms ;;
     type_string context keyboard b delay_ms) drv tr.
Proof.
  revert tr. induction a as [|c r IH]; intros tr; [reflexivity|].
  cbn [append type_string]. rewrite !bind_run.
  destruct (type_text_body context keyboard c delay_ms drv tr) as [[u|] tr'];
    [|reflexivity].
  rewrite IH, bind_run. reflexivity.
Qed.

(** X5.  For a concatenation shorter than 2^31 characters, typing it is
    typing the first text and then, if that returns, the second from the
    trace so reached: the loop carries nothing from one character to the
    next.  On the empty text nothing happens. *)
Theorem type_text_app :
  forall drv context keyboard a b delay_ms tr,
    Z.of_nat (strlen (append a b)) < 2 ^ 31 ->
    type_text context keyboard (append a b) delay_ms drv tr
    = (type_text context keyboard a delay_ms ;;
       type_text context keyboard b delay_ms) drv tr
    /\ type_text context keyboard EmptyString delay_ms drv tr = (Some tt, tr).
Proof.
  intros drv context keyboard a b d tr L. split; [|reflexivity].
  assert (La : Z.of_nat (strlen a) < 2 ^ 31) by (rewrite strlen_app in L; lia).
  assert (Lb : Z.of_nat (strlen b) < 2 ^ 31) by (rewrite strlen_app in L; lia).
  rewrite bind_run, !type_text_string.
  rewrite (loop_text_small _ L), (loop_text_small _ La), type_string_app, bind_run.
  destruct (type_string context keyboard a d drv tr) as [[u|] tr'];
    [|reflexivity].
  now rewrite type_text_string, (loop_text_small _ Lb).
Qed.

Lemma type_text_app_witness :
  Z.of_nat (strlen (append "Hi " "you")) < 2 ^ 31
  /\ type_text 1 1 (append "Hi " "you") 100 good_driver []
     = (type_text 1 1 "Hi " 100 ;; type_text 1 1 "you" 100) good_driver [].
Proof.
  split; [reflexivity|].
  apply (proj1 (type_text_app good_driver 1 1 "Hi "%string "you"%string 100 []
                  eq_refl)).
Defined.

Lemma held_app ks1 ks2 st :
  held (ks1 ++ ks2) st
  = match held ks1 st with
    | Some st' => held ks2 st'
    | None => None
    end.
Proof.
  revert st. induction ks1 as [|k ks1 IH]; intros st; simpl; [reflexivity|].
  destruct (state k); [apply IH|].
  destruct st as [|top rest]; [reflexivity|].
  destruct (top =? code k); [apply IH|reflexivity].
Qed.

Lemma held_key_events c st : held (key_events c) st = Some st.
Proof.
  unfold key_events. destruct (scancode_of c =? 0); [reflexivity|].
  destruct (shift_of c); simpl; rewrite ?Z.eqb_refl; reflexivity.
Qed.

Lemma held_text cs st : held (flat_map key_events cs) st = Some st.
Proof.
  induction cs as [|c cs IH]; simpl; [reflexivity|].
  now rewrite held_app, held_key_events.
Qed.

Lemma map_snd_pair {A B} (a : A) (l : list B) : map snd (map (pair a) l) = l.
Proof. induction l as [|x l IH]; simpl; [reflexivity|]. now rewrite IH. Qed.

Lemma length_key_events c :
  Z.of_nat (List.length (key_events c))
  = (if known c then 2 else 0) + (if shift_of c then 2 else 0).
Proof.
  unfold key_events, known.
  destruct (scancode_of c =? 0) eqn:E.
  - apply Z.eqb_eq in E. now rewrite (unknown_no_shift c E).
  - destruct (shift_of c); reflexivity.
Qed.

(** X6.  The strokes of a run are well nested, whatever the delay and the
    length: every key-up releases the key pressed last, and when the run
    ends or stops the keys held are those held before, so no key and no
    shift stays down.  When the pause of the delay returns and the length
    fits the loop counter, their number is two for each known character and
    two more for each shifted one. *)
Theorem strokes_well_nested :
  forall drv context keyboard text delay_ms stack,
    let sent_strokes :=
      map snd (strokes (snd (type_text context keyboard text delay_ms drv []))) in
    held sent_strokes stack = Some stack
    /\ (sleep_returns delay_ms -> Z.of_nat (strlen text) < 2 ^ 31 ->
        Z.of_nat (List.length sent_strokes)
        = 2 * known_count text + 2 * shifted_count text).
Proof.
  intros. unfold sent_strokes. split.
  - rewrite strokes_type_text_reached. cbn [strokes app].
    rewrite map_snd_pair. apply held_text.
  - intros S L. rewrite strokes_type_text by assumption. cbn [strokes app].
    rewrite map_snd_pair. unfold known_count, shifted_count.
    induction (list_ascii_of_string text) as [|c cs IH]; [reflexivity|].
    cbn [flat_map filter].
    rewrite length_app, Nat2Z.inj_add, IH, length_key_events.
    destruct (known c), (shift_of c); cbn [List.length]; lia.
Qed.

Lemma strokes_well_nested_witness :
  sleep_returns 0 /\ Z.of_nat (strlen "Ab1!") < 2 ^ 31
  /\ Z.of_nat (List.length
       (map snd (strokes (snd (type_text 1 1 "Ab1!" 0 good_driver [])))))
     = 2 * known_count "Ab1!" + 2 * shifted_count "Ab1!".
Proof.
  split; [exact sleep_returns_0|]. split; [reflexivity|].
  apply (proj2 (strokes_well_nested good_driver 1 1 "Ab1!" 0 [])
           sleep_returns_0 eq_refl).
Defined.

Lemma key_events_shifted s k :
  scancode_of s = scancode_of k -> shift_of s = true -> shift_of k = false ->
  key_events s = shiftDown :: key_events k ++ [shiftUp].
Proof.
  intros E S K. unfold key_events. rewrite <- E, S, K.
  destruct (scancode_of s =? 0) eqn:Z; [|reflexivity].
  apply Z.eqb_eq in Z. now apply shift_known in S.
Qed.

Lemma strokes_one_char drv context keyboard c delay_ms :
  strokes (snd (type_text context keyboard (String c EmptyString) delay_ms drv []))
  = map (pair keyboard) (key_events c).
Proof.
  rewrite strokes_type_text_reached.
  rewrite (loop_text_small (String c EmptyString) eq_refl).
  cbn [list_ascii_of_string reached strokes app flat_map].
  destruct (body_blocks c delay_ms); cbn [flat_map]; now rewrite app_nil_r.
Qed.

(** X7.  Typing an uppercase letter is typing its lowercase form between a
    shift-down and a shift-up, and typing a shifted symbol is typing its
    base key between the two. *)
Theorem shifted_is_base_in_shift :
  forall drv context keyboard delay_ms,
    let typed c :=
      strokes (snd (type_text context keyboard (String c EmptyString)
                      delay_ms drv [])) in
    (forall c, is_lower c = true ->
       typed (toUpper c)
       = (keyboard, shiftDown) :: typed c ++ [(keyboard, shiftUp)])
    /\ (forall s k, In (s, k) shifted_base ->
          typed s = (keyboard, shiftDown) :: typed k ++ [(keyboard, shiftUp)]).
Proof.
  intros drv context keyboard d typed.
  assert (T : forall c, typed c = map (pair keyboard) (key_events c))
    by (intros c; apply strokes_one_char).
  split.
  - intros c L. destruct (lower_upper_ok c L) as (E & S1 & S2 & _).
    rewrite !T, (key_events_shifted (toUpper c) c); auto.
    simpl. now rewrite map_app.
  - intros s k I. pose proof shifted_base_ok as F. rewrite Forall_forall in F.
    destruct (F (s, k) I) as (E & S1 & S2 & _). simpl in E, S1, S2.
    rewrite !T, (key_events_shifted s k); auto.
    simpl. now rewrite map_app.
Qed.

Lemma shifted_is_base_in_shift_witness :
  is_lower "e" = true
  /\ strokes (snd (type_text 1 4 "E" 0 good_driver []))
     = (4, shiftDown) :: strokes (snd (type_text 1 4 "e" 0 good_driver []))
       ++ [(4, shiftUp)].
Proof.
  split; [reflexivity|].
  apply (proj1 (shifted_is_base_in_shift good_driver 1 4 0) "e"%char).
  reflexivity.
Defined.

Lemma known_code_range c :
  scancode_of c <> 0 -> 0x02 <= scancode_of c <= 0x39.
Proof.
  intros N. pose proof (encoder_range_checked c) as H.
  rewrite !andb_true_iff in H.
  destruct H as [[[[[H0 H1] H2] _] _] _].
  apply known_true in N. rewrite N in H2. cbn [implb] in H2.
  apply Z.leb_le in H1, H2. lia.
Qed.

Lemma loop_effect_body drv context keyboard c delay_ms h :
  Forall (loop_effect context keyboard)
         (body_effects drv context keyboard c delay_ms h).
Proof.
  unfold body_effects.
  destruct (scancode_of c =? 0) eqn:E.
  - repeat constructor.
  - apply Z.eqb_neq in E. pose proof (known_code_range c E) as R.
    assert (D : 0 <= delay_ms mod 2 ^ 32 < 2 ^ 32)
      by (apply Z.mod_pos_bound; reflexivity).
    destruct (shift_of c), (blocks delay_ms);
      repeat constructor; simpl; try lia; exact I.
Qed.

Lemma loop_effect_text drv context keyboard text delay_ms h :
  Forall (loop_effect context keyboard)
         (text_effects drv context keyboard text delay_ms h).
Proof.
  revert h. induction text as [|c r IH]; intros h; simpl; [constructor|].
  apply Forall_app. split; [apply loop_effect_body|].
  destruct (body_blocks c delay_ms); [constructor|apply IH].
Qed.

(** X8.  All that [type_text] does is print, pause and send: every send is of
    one stroke, to the context and device it was given, with
    [information = 0] and a scan code between 0x02 and 0x39 (never the
    Unknown code 0), and every pause fits a DWORD.  It never touches the
    context, the filter or stderr. *)
Theorem type_text_effects :
  forall drv context keyboard text delay_ms tr,
    exists added,
      snd (type_text context keyboard text delay_ms drv tr) = tr ++ added
      /\ Forall (loop_effect context keyboard) added.
Proof.
  intros.
  exists (text_effects drv context keyboard (loop_text text) delay_ms (strokes tr)).
  rewrite type_text_trace. split; [reflexivity|]. apply loop_effect_text.
Qed.

Lemma counts_cons c r :
  known_count (String c r) = (if known c then 1 else 0) + known_count r
  /\ shifted_count (String c r) = (if shift_of c then 1 else 0) + shifted_count r.
Proof.
  unfold known_count, shifted_count. simpl.
  destruct (known c), (shift_of c); cbn [List.length]; lia.
Qed.

Lemma elapsed_type_text drv context keyboard text delay_ms tr :
  sleep_returns delay_ms -> Z.of_nat (strlen text) < 2 ^ 31 ->
  elapsed (snd (type_text context keyboard text delay_ms drv tr))
  = elapsed tr + (10 + delay_ms mod 2 ^ 32) * known_count text
    + 20 * shifted_count text.
Proof.
  intros S L. rewrite type_text_returns by assumption. cbn [snd].
  apply blocks_false in S.
  rewrite elapsed_app, (elapsed_text_effects context keyboard delay_ms S).
  enough (E : fold_right Z.add 0
                (map (char_time delay_ms) (list_ascii_of_string text))
              = (10 + delay_ms mod 2 ^ 32) * known_count text
                + 20 * shifted_count text) by lia.
  clear L. induction text as [|c r IH].
  { change (known_count EmptyString) with 0.
    change (shifted_count EmptyString) with 0.
    cbn [list_ascii_of_string map fold_right]. lia. }
  destruct (counts_cons c r) as [K C]. rewrite K, C.
  cbn [list_ascii_of_string map fold_right]. rewrite IH.
  unfold char_time, known.
  destruct (scancode_of c =? 0) eqn:E.
  - apply Z.eqb_eq in E. rewrite (unknown_no_shift c E). cbn [negb]. lia.
  - cbn [negb]. destruct (shift_of c); lia.
Qed.

(** X9.  The time [type_text] spends in [Sleep] on a text shorter than 2^31
    characters, when the pause of the delay returns: 10 ms and the delay
    for each known character, 20 ms more for each shifted one, nothing for
    a skipped one.  The delay is taken as a DWORD: a delay from 0 counts as
    it is, and a negative one below -1 counts as 2^32 plus itself, over 24
    days a character.  The delay -1 is [INFINITE]: the pause does not
    return. *)
Theorem type_text_elapsed :
  forall drv context keyboard text delay_ms tr,
    Z.of_nat (strlen text) < 2 ^ 31 ->
    let time := elapsed (snd (type_text context keyboard text delay_ms drv tr))
                - elapsed tr in
    (sleep_returns delay_ms ->
     time = (10 + delay_ms mod 2 ^ 32) * known_count text + 20 * shifted_count text)
    /\ (0 <= delay_ms <= INT_MAX ->
        time = (10 + delay_ms) * known_count text + 20 * shifted_count text)
    /\ (INT_MIN <= delay_ms < -1 ->
        time = (10 + (2 ^ 32 + delay_ms)) * known_count text
               + 20 * shifted_count text
        /\ 2 ^ 31 * known_count text <= time)
    /\ (delay_ms = -1 -> ~ sleep_returns delay_ms).
Proof.
  intros drv context keyboard text d tr L time. unfold time, INT_MIN, INT_MAX.
  assert (K : 0 <= known_count text) by (unfold known_count; lia).
  assert (S : 0 <= shifted_count text) by (unfold shifted_count; lia).
  split; [|split; [|split]].
  - intros R. rewrite elapsed_type_text by assumption. lia.
  - intros H.
    assert (M : d mod 2 ^ 32 = d) by (apply Z.mod_small; lia).
    assert (R : sleep_returns d)
      by (unfold sleep_returns, INFINITE; rewrite M; lia).
    rewrite elapsed_type_text by assumption. rewrite M. lia.
  - intros H.
    assert (M : d mod 2 ^ 32 = 2 ^ 32 + d)
      by (symmetry; apply (Z.mod_unique _ _ (-1)); lia).
    assert (R : sleep_returns d)
      by (unfold sleep_returns, INFINITE; rewrite M; lia).
    rewrite elapsed_type_text by assumption. rewrite M. split; [lia|nia].
  - intros -> R. apply R. reflexivity.
Qed.

Lemma type_text_elapsed_witness :
  Z.of_nat (strlen "Hi") < 2 ^ 31 /\ INT_MIN <= -5 < -1
  /\ elapsed (snd (type_text 1 1 "Hi" (-5) good_driver [])) - elapsed []
     = (10 + (2 ^ 32 + -5)) * known_count "Hi" + 20 * shifted_count "Hi".
Proof.
  split; [reflexivity|].
  split; [vm_compute; split; [discriminate|reflexivity]|].
  apply (proj1 (proj2 (proj2 (type_text_elapsed good_driver 1 1 "Hi" (-5) []
                                eq_refl)))).
  vm_compute. split; [discriminate|reflexivity].
Defined.

(** X10.  On a text shorter than 2^31 characters, when the pause of the delay
    returns, each character gives one progress line: a [Typed] line when
    the encoder knows it, a warning when it does not.  So the typed lines
    number the known characters, and typed lines and warnings together
    number [strlen(text)]. *)
Theorem type_text_progress_counts :
  forall drv context keyboard text delay_ms,
    sleep_returns delay_ms -> Z.of_nat (strlen text) < 2 ^ 31 ->
    let tr := snd (type_text context keyboard text delay_ms drv []) in
    progress tr
    = map (fun c => if known c then Typed c else Skipped c)
          (list_ascii_of_string text)
    /\ Z.of_nat (typed_count tr) = known_count text
    /\ (typed_count tr + warning_count tr)%nat = strlen text.
Proof.
  intros drv context keyboard text d S L tr. unfold tr.
  rewrite type_text_returns by assumption. cbn [snd app].
  apply blocks_false in S.
  unfold typed_count, warning_count.
  rewrite (progress_text_effects context keyboard d S).
  unfold known_count, strlen. clear.
  assert (P : forall c, progress_entry c = if known c then Typed c else Skipped c).
  { intros c. unfold progress_entry, known.
    destruct (scancode_of c =? 0); reflexivity. }
  split; [apply map_ext, P|].
  induction text as [|c r IH]; [split; reflexivity|].
  destruct IH as [IH1 IH2]. cbn [list_ascii_of_string map filter String.length].
  rewrite P. destruct (known c); cbn [is_typed negb List.length]; split; lia.
Qed.

Lemma type_text_progress_counts_witness :
  sleep_returns 100 /\ Z.of_nat (strlen "a~ b") < 2 ^ 31
  /\ Z.of_nat (typed_count (snd (type_text 1 1 "a~ b" 100 good_driver [])))
     = known_count "a~ b".
Proof.
  split; [exact sleep_returns_100|]. split; [reflexivity|].
  apply (type_text_progress_counts good_driver 1 1 "a~ b" 100
           sleep_returns_100 eq_refl).
Defined.

(** ** The program *)









(** X14.  [main] reads [argv[1]] and [argv[2]] and nothing else of its
    arguments: the program name and anything after the delay are ignored,
    and leaving the delay out is the same as passing 100. *)
Theorem main_reads_two_arguments :
  forall drv a0 b0 text delay rest,
    run (main (a0 :: text :: delay :: rest)) drv = run (main [b0; text; delay]) drv
    /\ run (main [a0; text]) drv = run (main [b0; text; "100"%string]) drv
    /\ run (main [a0]) drv = run (main []) drv.
Proof.
  intros. split; [|split; reflexivity].
  unfold run, main.
  assert (A : (Z.of_nat (List.length (a0 :: text :: delay :: rest)) <? 2) = false)
    by (apply Z.ltb_ge; cbn [List.length]; lia).
  assert (B : (3 <=? Z.of_nat (List.length (a0 :: text :: delay :: rest))) = true)
    by (apply Z.leb_le; cbn [List.length]; lia).
  rewrite A, B. reflexivity.
Qed.
